(** * DiceyDecisions client: the room view controller and its neighbours

    A shallow embedding of [src/index.js] (the React client of the
    DiceyDecisions application) and the properties of its room view:
    which controls the view offers, what each handler does with the
    server's reply, and when the poll timer exists.

    Conventions of the embedding:
    - a JavaScript string is a [string] whose characters are UTF-16 code
      units below 256; [null] is [None];
    - the replies of the remote API are typed by the request/response
      contract the client is written against; a rejected request carries
      the message found at [err.response?.data?.message], if any;
    - a handler is a computation in a small state-and-log monad: it reads
      and writes the component's state and logs the requests it sends,
      the toasts it raises and the navigations it asks for.  The reply to
      each request is an argument of the handler;
    - React commits the batched state updates whenever a handler suspends
      on a request and when it ends; each commit is logged and runs the
      effects whose dependencies changed;
    - a handler runs to its end before the next one starts: a poll tick
      that fires while a request of another handler is pending is not
      interleaved with it, and the second run of every effect that
      [React.StrictMode] adds in development builds is left out. *)

From Stdlib Require Import String Ascii List Bool ZArith Arith Lia.
Import ListNotations.
Local Open Scope string_scope.
Local Open Scope bool_scope.

(** ** JavaScript strings *)

Module Js.

(** [WhiteSpace] and [LineTerminator] code units below 256: TAB, LF, VT,
    FF, CR, SP and NBSP. *)
Definition is_white_space (c : ascii) : bool :=
  let n := nat_of_ascii c in
  ((9 <=? n)%nat && (n <=? 13)%nat) || (n =? 32)%nat || (n =? 160)%nat.

Fixpoint trimStart (s : string) : string :=
  match s with
  | EmptyString => EmptyString
  | String c rest => if is_white_space c then trimStart rest else s
  end.

Fixpoint trimEnd (s : string) : string :=
  match s with
  | EmptyString => EmptyString
  | String c rest =>
      match trimEnd rest with
      | EmptyString => if is_white_space c then EmptyString else String c EmptyString
      | kept => String c kept
      end
  end.

(** [String.prototype.trim] *)
Definition trim (s : string) : string := trimEnd (trimStart s).

(** Truthiness of a string: only the empty string is falsy. *)
Definition truthy (s : string) : bool :=
  match s with
  | EmptyString => false
  | String _ _ => true
  end.

(** Truthiness of a value that is a string or [null]. *)
Definition truthy_opt (v : option string) : bool :=
  match v with
  | Some s => truthy s
  | None => false
  end.

(** [a || b] where [a] is a string, [null] or [undefined]. *)
Definition or_else (a : option string) (b : string) : string :=
  match a with
  | Some s => if truthy s then s else b
  | None => b
  end.

(** [Number(s)] and the literal [0], kept symbolic. *)
Inductive number : Type :=
| Zero
| NumberOf (s : string).

End Js.

(** ** The remote API as the client sees it *)

(** What a rejected request carries: [err.response?.data?.message]. *)
Record ApiError : Type := mkApiError { server_message : option string }.

(** A thrown [TypeError] has no [response]. *)
Definition type_error : ApiError := mkApiError None.

Inductive Reply (A : Type) : Type :=
| Ok (data : A)
| Failed (err : ApiError).
Arguments Ok {A} data.
Arguments Failed {A} err.

Inductive Method : Type := dice | spinner | coin.

Definition method_name (m : Method) : string :=
  match m with
  | dice => "dice"
  | spinner => "spinner"
  | coin => "coin"
  end.

Inductive Body : Type :=
| NoBody
| AuthBody (email password : string)
| CreateBody (title description : string) (maxParticipants : Js.number)
| JoinBody (roomCode : string)
| OptionBody (text : string)
| VoteBody (optionId : option string)
| TiebreakerBody (method : string) (tiedOptionIds : list string).

Inductive Request : Type :=
| GET (url : string)
| POST (url : string) (body : Body).

Record FinalDecision : Type := mkFinalDecision { optionId : string }.

Record Room : Type := mkRoom {
  room_id : string;
  title : string;
  description : string;
  creatorId : string;
  votingOpen : bool;
  finalDecision : option FinalDecision
}.

Record Option : Type := mkOption {
  opt_id : string;
  text : string
}.

(** [GET /rooms/code/{code}] *)
Record LoadData : Type := mkLoadData {
  ld_room : Room;
  ld_options : list Option;
  ld_hasVoted : bool
}.

(** [POST /rooms/{id}/close-voting] *)
Record CloseData : Type := mkCloseData {
  tie : bool;
  cd_tiedOptionIds : list string
}.

(** [POST /rooms/{id}/tiebreaker] *)
Record TiebreakerData : Type := mkTiebreakerData { winnerOptionId : string }.

(** [POST /auth/login] and [POST /auth/signup] *)
Record AuthData : Type := mkAuthData { token : string; ad_email : string }.

(** [POST /rooms] *)
Record CreateData : Type := mkCreateData { cr_roomCode : string }.

(** A row of [GET /rooms/past/rooms]; the view only prints it. *)
Record PastRoom : Type := mkPastRoom {
  past_title : string;
  finalChosenOption : string
}.

(** ** The state cells of the room view ([useState]) *)

Record Hooks : Type := mkHooks {
  loading : bool;
  room : option (nat * Room);      (* the object and its identity *)
  options : list Option;
  optionText : string;
  hasVoted : bool;
  selectedOptionId : option string;
  voteCasting : bool;
  votingClosing : bool;
  tiebreakerMethod : string;
  tiedOptionIds : list string;
  tiebreaking : bool;
  finalOptionText : option string;
  shareLink : string
}.

Definition initial_hooks : Hooks :=
  {| loading := true; room := None; options := []; optionText := "";
     hasVoted := false; selectedOptionId := None; voteCasting := false;
     votingClosing := false; tiebreakerMethod := ""; tiedOptionIds := [];
     tiebreaking := false; finalOptionText := None; shareLink := "" |}.

(** ** What a handler leaves behind *)

Inductive ToastKind : Type := success | error | info.

Inductive Event : Type :=
| Sent (r : Request)
| Toast (k : ToastKind) (msg : string)
| Navigate (path : string)
| AuthLogin (tok email : string)
| Commit (h : Hooks).

Definition requests (log : list Event) : list Request :=
  flat_map (fun e => match e with Sent r => [r] | _ => [] end) log.

Definition toasts (log : list Event) : list (ToastKind * string) :=
  flat_map (fun e => match e with Toast k m => [(k, m)] | _ => [] end) log.

Definition navigations (log : list Event) : list string :=
  flat_map (fun e => match e with Navigate p => [p] | _ => [] end) log.

Definition commits (log : list Event) : list Hooks :=
  flat_map (fun e => match e with Commit h => [h] | _ => [] end) log.

(** ** The handler monad: state and log *)

Definition M (S A : Type) : Type := S -> A * S * list Event.

Definition ret {S A} (a : A) : M S A := fun s => (a, s, []).

Definition bind {S A B} (m : M S A) (k : A -> M S B) : M S B :=
  fun s =>
    let '(a, s1, l1) := m s in
    let '(b, s2, l2) := k a s1 in
    (b, s2, (l1 ++ l2)%list).

Definition get {S} : M S S := fun s => (s, s, []).
Definition modify {S} (f : S -> S) : M S unit := fun s => (tt, f s, []).
Definition emit {S} (e : Event) : M S unit := fun s => (tt, s, [e]).

Declare Scope handler_scope.
Delimit Scope handler_scope with handler.
Notation "x <- m ;; k" := (bind m (fun x => k))
  (at level 61, m at next level, right associativity) : handler_scope.
Notation "m ;; k" := (bind m (fun _ => k))
  (at level 61, right associativity) : handler_scope.
Local Open Scope handler_scope.

Definition value {S A} (r : A * S * list Event) : A := fst (fst r).
Definition state_after {S A} (r : A * S * list Event) : S := snd (fst r).
Definition log_of {S A} (r : A * S * list Event) : list Event := snd r.

Definition toast {S} (k : ToastKind) (msg : string) : M S unit := emit (Toast k msg).
Definition navigate {S} (path : string) : M S unit := emit (Navigate path).

(** ** The room view: component state, effects and commits *)

Module RoomView.

(** Setters of the state cells. *)
Definition setLoading (v : bool) (h : Hooks) : Hooks :=
  {| loading := v; room := room h; options := options h;
     optionText := optionText h; hasVoted := hasVoted h;
     selectedOptionId := selectedOptionId h; voteCasting := voteCasting h;
     votingClosing := votingClosing h; tiebreakerMethod := tiebreakerMethod h;
     tiedOptionIds := tiedOptionIds h; tiebreaking := tiebreaking h;
     finalOptionText := finalOptionText h; shareLink := shareLink h |}.

Definition setRoom (v : option (nat * Room)) (h : Hooks) : Hooks :=
  {| loading := loading h; room := v; options := options h;
     optionText := optionText h; hasVoted := hasVoted h;
     selectedOptionId := selectedOptionId h; voteCasting := voteCasting h;
     votingClosing := votingClosing h; tiebreakerMethod := tiebreakerMethod h;
     tiedOptionIds := tiedOptionIds h; tiebreaking := tiebreaking h;
     finalOptionText := finalOptionText h; shareLink := shareLink h |}.

Definition setOptions (v : list Option) (h : Hooks) : Hooks :=
  {| loading := loading h; room := room h; options := v;
     optionText := optionText h; hasVoted := hasVoted h;
     selectedOptionId := selectedOptionId h; voteCasting := voteCasting h;
     votingClosing := votingClosing h; tiebreakerMethod := tiebreakerMethod h;
     tiedOptionIds := tiedOptionIds h; tiebreaking := tiebreaking h;
     finalOptionText := finalOptionText h; shareLink := shareLink h |}.

Definition setOptionText (v : string) (h : Hooks) : Hooks :=
  {| loading := loading h; room := room h; options := options h;
     optionText := v; hasVoted := hasVoted h;
     selectedOptionId := selectedOptionId h; voteCasting := voteCasting h;
     votingClosing := votingClosing h; tiebreakerMethod := tiebreakerMethod h;
     tiedOptionIds := tiedOptionIds h; tiebreaking := tiebreaking h;
     finalOptionText := finalOptionText h; shareLink := shareLink h |}.

Definition setHasVoted (v : bool) (h : Hooks) : Hooks :=
  {| loading := loading h; room := room h; options := options h;
     optionText := optionText h; hasVoted := v;
     selectedOptionId := selectedOptionId h; voteCasting := voteCasting h;
     votingClosing := votingClosing h; tiebreakerMethod := tiebreakerMethod h;
     tiedOptionIds := tiedOptionIds h; tiebreaking := tiebreaking h;
     finalOptionText := finalOptionText h; shareLink := shareLink h |}.

Definition setSelectedOptionId (v : option string) (h : Hooks) : Hooks :=
  {| loading := loading h; room := room h; options := options h;
     optionText := optionText h; hasVoted := hasVoted h;
     selectedOptionId := v; voteCasting := voteCasting h;
     votingClosing := votingClosing h; tiebreakerMethod := tiebreakerMethod h;
     tiedOptionIds := tiedOptionIds h; tiebreaking := tiebreaking h;
     finalOptionText := finalOptionText h; shareLink := shareLink h |}.

Definition setVoteCasting (v : bool) (h : Hooks) : Hooks :=
  {| loading := loading h; room := room h; options := options h;
     optionText := optionText h; hasVoted := hasVoted h;
     selectedOptionId := selectedOptionId h; voteCasting := v;
     votingClosing := votingClosing h; tiebreakerMethod := tiebreakerMethod h;
     tiedOptionIds := tiedOptionIds h; tiebreaking := tiebreaking h;
     finalOptionText := finalOptionText h; shareLink := shareLink h |}.

Definition setVotingClosing (v : bool) (h : Hooks) : Hooks :=
  {| loading := loading h; room := room h; options := options h;
     optionText := optionText h; hasVoted := hasVoted h;
     selectedOptionId := selectedOptionId h; voteCasting := voteCasting h;
     votingClosing := v; tiebreakerMethod := tiebreakerMethod h;
     tiedOptionIds := tiedOptionIds h; tiebreaking := tiebreaking h;
     finalOptionText := finalOptionText h; shareLink := shareLink h |}.

Definition setTiebreakerMethod (v : string) (h : Hooks) : Hooks :=
  {| loading := loading h; room := room h; options := options h;
     optionText := optionText h; hasVoted := hasVoted h;
     selectedOptionId := selectedOptionId h; voteCasting := voteCasting h;
     votingClosing := votingClosing h; tiebreakerMethod := v;
     tiedOptionIds := tiedOptionIds h; tiebreaking := tiebreaking h;
     finalOptionText := finalOptionText h; shareLink := shareLink h |}.

Definition setTiedOptionIds (v : list string) (h : Hooks) : Hooks :=
  {| loading := loading h; room := room h; options := options h;
     optionText := optionText h; hasVoted := hasVoted h;
     selectedOptionId := selectedOptionId h; voteCasting := voteCasting h;
     votingClosing := votingClosing h; tiebreakerMethod := tiebreakerMethod h;
     tiedOptionIds := v; tiebreaking := tiebreaking h;
     finalOptionText := finalOptionText h; shareLink := shareLink h |}.

Definition setTiebreaking (v : bool) (h : Hooks) : Hooks :=
  {| loading := loading h; room := room h; options := options h;
     optionText := optionText h; hasVoted := hasVoted h;
     selectedOptionId := selectedOptionId h; voteCasting := voteCasting h;
     votingClosing := votingClosing h; tiebreakerMethod := tiebreakerMethod h;
     tiedOptionIds := tiedOptionIds h; tiebreaking := v;
     finalOptionText := finalOptionText h; shareLink := shareLink h |}.

Definition setFinalOptionText (v : option string) (h : Hooks) : Hooks :=
  {| loading := loading h; room := room h; options := options h;
     optionText := optionText h; hasVoted := hasVoted h;
     selectedOptionId := selectedOptionId h; voteCasting := voteCasting h;
     votingClosing := votingClosing h; tiebreakerMethod := tiebreakerMethod h;
     tiedOptionIds := tiedOptionIds h; tiebreaking := tiebreaking h;
     finalOptionText := v; shareLink := shareLink h |}.

Definition setShareLink (v : string) (h : Hooks) : Hooks :=
  {| loading := loading h; room := room h; options := options h;
     optionText := optionText h; hasVoted := hasVoted h;
     selectedOptionId := selectedOptionId h; voteCasting := voteCasting h;
     votingClosing := votingClosing h; tiebreakerMethod := tiebreakerMethod h;
     tiedOptionIds := tiedOptionIds h; tiebreaking := tiebreaking h;
     finalOptionText := finalOptionText h; shareLink := v |}.

(** A pending [setInterval]: its handle, its period in milliseconds and
    the room code its callback [loadRoom] closes over. *)
Record Timer : Type := mkTimer {
  timer_id : nat;
  delay : Z;
  callback_code : string
}.

(** The poll effect as React remembers it between commits: the
    dependencies [[room, loadRoom]] it last ran with ([room] by identity,
    [loadRoom] by the [roomCode] that [useCallback] keys it on) and the
    interval its cleanup clears, if it set one. *)
Record PollEffect : Type := mkPollEffect {
  dep_room : option nat;
  dep_loadRoom : string;
  cleanup : option nat
}.

Record Component : Type := mkComponent {
  hooks : Hooks;
  roomCode : string;               (* [useParams()] *)
  auth_email : option string;      (* [useAuth().auth.email] *)
  origin : string;                 (* [window.location.origin] *)
  timers : list Timer;             (* the intervals pending in the browser *)
  poll_effect : option PollEffect; (* [None]: not mounted *)
  fresh : nat                      (* next object identity / timer handle *)
}.

Definition with_hooks (f : Hooks -> Hooks) (c : Component) : Component :=
  {| hooks := f (hooks c); roomCode := roomCode c; auth_email := auth_email c;
     origin := origin c; timers := timers c; poll_effect := poll_effect c;
     fresh := fresh c |}.

Definition set (f : Hooks -> Hooks) : M Component unit := modify (with_hooks f).

Definition eqb_identity (a b : option nat) : bool :=
  match a, b with
  | Some x, Some y => (x =? y)%nat
  | None, None => true
  | _, _ => false
  end.

Definition room_identity (c : Component) : option nat :=
  option_map fst (room (hooks c)).

Definition clearInterval (id : nat) (ts : list Timer) : list Timer :=
  filter (fun t => negb (timer_id t =? id)%nat) ts.

(** The cleanup returned by the last run of the poll effect. *)
Definition stop_poll (c : Component) : Component :=
  match poll_effect c with
  | Some {| cleanup := Some id |} =>
      {| hooks := hooks c; roomCode := roomCode c; auth_email := auth_email c;
         origin := origin c; timers := clearInterval id (timers c);
         poll_effect := poll_effect c; fresh := fresh c |}
  | _ => c
  end.

(** The body of the poll effect:
    [if (!room || !room.votingOpen) return;
     const interval = setInterval(loadRoom, 5000);
     return () => clearInterval(interval);] *)
Definition start_poll (c : Component) : Component :=
  let polling :=
    match room (hooks c) with
    | Some (_, rm) => votingOpen rm
    | None => false
    end in
  if polling then
    {| hooks := hooks c; roomCode := roomCode c; auth_email := auth_email c;
       origin := origin c;
       timers := (timers c ++ [mkTimer (fresh c) 5000 (roomCode c)])%list;
       poll_effect := Some (mkPollEffect (room_identity c) (roomCode c) (Some (fresh c)));
       fresh := S (fresh c) |}
  else
    {| hooks := hooks c; roomCode := roomCode c; auth_email := auth_email c;
       origin := origin c; timers := timers c;
       poll_effect := Some (mkPollEffect (room_identity c) (roomCode c) None);
       fresh := fresh c |}.

(** After a render React re-runs the poll effect when [room] or
    [loadRoom] is not the one of the previous run: cleanup first, then
    the body. *)
Definition run_effects (c : Component) : Component :=
  match poll_effect c with
  | Some p =>
      if eqb_identity (dep_room p) (room_identity c) && (dep_loadRoom p =? roomCode c)
      then c
      else start_poll (stop_poll c)
  | None => start_poll c
  end.

Definition commit : M Component unit :=
  modify run_effects ;;
  c <- get ;;
  emit (Commit (hooks c)).

(** [await api.get(...)] / [await api.post(...)]: the request leaves, the
    handler suspends (React commits what was set so far), and the
    handler resumes with the reply. *)
Definition request {A} (r : Request) (reply : Reply A) : M Component (Reply A) :=
  emit (Sent r) ;;
  commit ;;
  ret reply.

(** A fresh object identity for a parsed response. *)
Definition new_object : M Component nat :=
  c <- get ;;
  modify (fun c =>
    {| hooks := hooks c; roomCode := roomCode c; auth_email := auth_email c;
       origin := origin c; timers := timers c; poll_effect := poll_effect c;
       fresh := S (fresh c) |}) ;;
  ret (fresh c).

(** [room._id] inside a [try]: a [TypeError] when [room] is [null]. *)
Definition with_room {A} (h : Hooks) (k : Room -> M Component (Reply A))
  : M Component (Reply A) :=
  match room h with
  | Some (_, rm) => k rm
  | None => ret (Failed type_error)
  end.

(** [options.find(o => o._id === id)] *)
Definition find_option (id : string) (opts : list Option) : option Option :=
  find (fun o => opt_id o =? id) opts.

(** The text [loadRoom] shows for the final decision of a response. *)
Definition resolve_final (data : LoadData) : option string :=
  match finalDecision (ld_room data) with
  | Some fd =>
      if Js.truthy (optionId fd) then
        match find_option (optionId fd) (ld_options data) with
        | Some found => Some (text found)
        | None => Some ""
        end
      else None
  | None => None
  end.

(** [loadRoom], memoized on [roomCode]. *)
Definition loadRoom (code : string) (reply : Reply LoadData) : M Component unit :=
  r <- request (GET ("/rooms/code/" ++ code)) reply ;;
  match r with
  | Ok data =>
      ref <- new_object ;;
      c <- get ;;
      set (setRoom (Some (ref, ld_room data))) ;;
      set (setOptions (ld_options data)) ;;
      set (setHasVoted (ld_hasVoted data)) ;;
      set (setFinalOptionText (resolve_final data)) ;;
      set (setShareLink (origin c ++ "/room/" ++ code)) ;;
      set (setLoading false)
  | Failed _ =>
      toast error "Failed to load room data" ;;
      set (setLoading false)
  end.

(** [submitOption] *)
Definition submitOption (r1 : Reply unit) (r2 : Reply LoadData) : M Component unit :=
  c <- get ;;
  let h := hooks c in
  if negb (Js.truthy (Js.trim (optionText h))) then toast error "Enter option text"
  else
    a <- with_room h (fun rm =>
           request (POST ("/rooms/" ++ room_id rm ++ "/options")
                         (OptionBody (Js.trim (optionText h)))) r1) ;;
    match a with
    | Ok _ =>
        toast success "Option added!" ;;
        set (setOptionText "") ;;
        loadRoom (roomCode c) r2
    | Failed err =>
        toast error (Js.or_else (server_message err) "Failed to add option")
    end.

(** [openVoting] *)
Definition openVoting (r1 : Reply unit) (r2 : Reply LoadData) : M Component unit :=
  c <- get ;;
  match room (hooks c) with
  | None => ret tt
  | Some (_, rm) =>
      a <- request (POST ("/rooms/" ++ room_id rm ++ "/open-voting") NoBody) r1 ;;
      match a with
      | Ok _ =>
          toast success "Voting opened!" ;;
          loadRoom (roomCode c) r2
      | Failed err =>
          toast error (Js.or_else (server_message err) "Failed to open voting")
      end
  end.

(** [vote] *)
Definition vote (r1 : Reply unit) (r2 : Reply LoadData) : M Component unit :=
  c <- get ;;
  let h := hooks c in
  if negb (Js.truthy_opt (selectedOptionId h)) then toast error "Select an option to vote"
  else
    set (setVoteCasting true) ;;
    a <- with_room h (fun rm =>
           request (POST ("/rooms/" ++ room_id rm ++ "/vote")
                         (VoteBody (selectedOptionId h))) r1) ;;
    match a with
    | Ok _ =>
        toast success "Vote cast!" ;;
        set (setHasVoted true) ;;
        loadRoom (roomCode c) r2
    | Failed err =>
        toast error (Js.or_else (server_message err) "Failed to vote")
    end ;;
    set (setVoteCasting false).

(** [closeVoting] *)
Definition closeVoting (r1 : Reply CloseData) (r2 : Reply LoadData) : M Component unit :=
  c <- get ;;
  match room (hooks c) with
  | None => ret tt
  | Some (_, rm) =>
      set (setVotingClosing true) ;;
      a <- request (POST ("/rooms/" ++ room_id rm ++ "/close-voting") NoBody) r1 ;;
      match a with
      | Ok data =>
          toast success "Voting closed!" ;;
          if tie data then
            set (setTiedOptionIds (cd_tiedOptionIds data)) ;;
            toast info "It's a tie! Please choose a tiebreaker."
          else
            toast info "Decision made!" ;;
            loadRoom (roomCode c) r2
      | Failed err =>
          toast error (Js.or_else (server_message err) "Failed to close voting")
      end ;;
      set (setVotingClosing false)
  end.

(** [triggerTiebreaker] *)
Definition triggerTiebreaker (method : Method)
    (r1 : Reply TiebreakerData) (r2 : Reply LoadData) : M Component unit :=
  c <- get ;;
  let h := hooks c in
  match room h with
  | None => ret tt
  | Some (_, rm) =>
      set (setTiebreaking true) ;;
      set (setTiebreakerMethod (method_name method)) ;;
      a <- request (POST ("/rooms/" ++ room_id rm ++ "/tiebreaker")
                         (TiebreakerBody (method_name method) (tiedOptionIds h))) r1 ;;
      match a with
      | Ok data =>
          let winnerOpt := find_option (winnerOptionId data) (options h) in
          set (setFinalOptionText
                 (Some (Js.or_else (option_map text winnerOpt) "Unknown"))) ;;
          toast success (method_name method ++ " tiebreaker done! Winner: "
                         ++ Js.or_else (option_map text winnerOpt) "N/A") ;;
          set (setTiedOptionIds []) ;;
          loadRoom (roomCode c) r2
      | Failed err =>
          toast error (Js.or_else (server_message err) "Failed to trigger tiebreaker")
      end ;;
      set (setTiebreaking false) ;;
      set (setTiebreakerMethod "")
  end.

(** [const isCreator = room?.creatorId === auth.email || false;]
    With [room] null the left side is [undefined], which is strictly
    equal to neither a string nor [null]. *)
Definition isCreator (c : Component) : bool :=
  match room (hooks c), auth_email c with
  | Some (_, rm), Some email => creatorId rm =? email
  | _, _ => false
  end.

(** *** What the view renders *)

Inductive OptionRow : Type :=
| PlainRow (label : string)
| RadioRow (value label : string) (disabled : bool)
| VotedRow (label : string) (yourVote : bool).

(** The controls of a rendered room; a button is [Some disabled]. *)
Record Page : Type := mkPage {
  submit_form : bool;
  no_options_notice : bool;
  rows : list OptionRow;
  vote_button : option bool;
  open_voting_button : bool;
  close_voting_button : option bool;
  final_banner : option string;
  tie_prompt : option bool
}.

Inductive Screen : Type :=
| LoadingScreen
| NotFoundScreen
| RoomPage (p : Page).

Definition eqb_selected (sel : option string) (id : string) : bool :=
  match sel with
  | Some s => s =? id
  | None => false
  end.

Definition render_row (h : Hooks) (rm : Room) (opt : Option) : list OptionRow :=
  ((if negb (votingOpen rm) then [PlainRow (text opt)] else []) ++
   (if votingOpen rm && negb (hasVoted h)
    then [RadioRow (opt_id opt) (text opt) (voteCasting h)] else []) ++
   (if votingOpen rm && hasVoted h
    then [VotedRow (text opt) (eqb_selected (selectedOptionId h) (opt_id opt))]
    else []))%list.

Definition render_page (c : Component) (rm : Room) : Page :=
  let h := hooks c in
  {| submit_form := negb (votingOpen rm) && negb (hasVoted h);
     no_options_notice := (length (options h) =? 0)%nat;
     rows := flat_map (render_row h rm) (options h);
     vote_button :=
       if votingOpen rm && negb (hasVoted h)
       then Some (voteCasting h || negb (Js.truthy_opt (selectedOptionId h)))
       else None;
     open_voting_button :=
       isCreator c && negb (votingOpen rm) && (0 <? length (options h))%nat;
     close_voting_button :=
       if isCreator c && votingOpen rm then Some (votingClosing h) else None;
     final_banner :=
       if Js.truthy_opt (finalOptionText h) then finalOptionText h else None;
     tie_prompt :=
       if isCreator c && (0 <? length (tiedOptionIds h))%nat
          && negb (Js.truthy_opt (finalOptionText h))
       then Some (tiebreaking h) else None |}.

Definition render (c : Component) : Screen :=
  if loading (hooks c) then LoadingScreen
  else match room (hooks c) with
       | None => NotFoundScreen
       | Some (_, rm) => RoomPage (render_page c rm)
       end.

(** The handlers the rendered controls lead to. *)
Definition offers_submitOption (s : Screen) : bool :=
  match s with
  | RoomPage p => submit_form p
  | _ => false
  end.

Definition offers_vote (s : Screen) : bool :=
  match s with
  | RoomPage p => match vote_button p with Some _ => true | None => false end
  | _ => false
  end.

Definition offers_radio (s : Screen) (id : string) : bool :=
  match s with
  | RoomPage p =>
      existsb (fun r => match r with
                        | RadioRow v _ disabled => (v =? id) && negb disabled
                        | _ => false
                        end) (rows p)
  | _ => false
  end.

Definition offers_openVoting (s : Screen) : bool :=
  match s with
  | RoomPage p => open_voting_button p
  | _ => false
  end.

Definition offers_closeVoting (s : Screen) : bool :=
  match s with
  | RoomPage p => match close_voting_button p with Some _ => true | None => false end
  | _ => false
  end.

Definition offers_tiebreaker (s : Screen) : bool :=
  match s with
  | RoomPage p => match tie_prompt p with Some _ => true | None => false end
  | _ => false
  end.

Definition enabled (b : option bool) : bool :=
  match b with
  | Some disabled => negb disabled
  | None => false
  end.

(** *** The life of a mounted room view *)

Definition initial (code : string) (email : option string) (org : string) : Component :=
  {| hooks := initial_hooks; roomCode := code; auth_email := email; origin := org;
     timers := []; poll_effect := None; fresh := 0 |}.

(** First render, then the two effects: [loadRoom()] and the poll. *)
Definition mount (reply : Reply LoadData) : M Component unit :=
  commit ;;
  c <- get ;;
  loadRoom (roomCode c) reply ;;
  commit.

Definition set_roomCode (code : string) (c : Component) : Component :=
  {| hooks := hooks c; roomCode := code; auth_email := auth_email c;
     origin := origin c; timers := timers c; poll_effect := poll_effect c;
     fresh := fresh c |}.

(** The route parameter changes under the same component instance:
    [loadRoom] is a new function, so both effects run again. *)
Definition changeRoomCode (code : string) (reply : Reply LoadData) : M Component unit :=
  c <- get ;;
  if roomCode c =? code then ret tt
  else
    modify (set_roomCode code) ;;
    commit ;;
    loadRoom code reply ;;
    commit.

(** Teardown: React runs the cleanup of the poll effect. *)
Definition unmount : M Component unit :=
  modify stop_poll ;;
  modify (fun c =>
    {| hooks := hooks c; roomCode := roomCode c; auth_email := auth_email c;
       origin := origin c; timers := timers c; poll_effect := None;
       fresh := fresh c |}).

Definition find_timer (id : nat) (ts : list Timer) : option Timer :=
  find (fun t => (timer_id t =? id)%nat) ts.

Inductive Action : Type :=
| TypeOptionText (s : string)
| SelectOption (id : string)
| ClickAddOption (r1 : Reply unit) (r2 : Reply LoadData)
| ClickOpenVoting (r1 : Reply unit) (r2 : Reply LoadData)
| ClickVote (r1 : Reply unit) (r2 : Reply LoadData)
| ClickCloseVoting (r1 : Reply CloseData) (r2 : Reply LoadData)
| ClickTiebreaker (m : Method) (r1 : Reply TiebreakerData) (r2 : Reply LoadData)
| PollTick (id : nat) (r : Reply LoadData)
| ChangeRoomCode (code : string) (r : Reply LoadData)
| Unmount.

Definition mounted (c : Component) : bool :=
  match poll_effect c with
  | Some _ => true
  | None => false
  end.

(** What the user, the browser or the router can do to the view as it
    stands; a disabled button takes no click. *)
Definition handler_of (c : Component) (a : Action) : option (M Component unit) :=
  let s := render c in
  match a with
  | TypeOptionText t =>
      if mounted c && offers_submitOption s then Some (set (setOptionText t)) else None
  | SelectOption id =>
      if mounted c && offers_radio s id then Some (set (setSelectedOptionId (Some id))) else None
  | ClickAddOption r1 r2 =>
      if mounted c && offers_submitOption s then Some (submitOption r1 r2) else None
  | ClickOpenVoting r1 r2 =>
      if mounted c && offers_openVoting s then Some (openVoting r1 r2) else None
  | ClickVote r1 r2 =>
      match s with
      | RoomPage p => if mounted c && enabled (vote_button p) then Some (vote r1 r2) else None
      | _ => None
      end
  | ClickCloseVoting r1 r2 =>
      match s with
      | RoomPage p =>
          if mounted c && enabled (close_voting_button p) then Some (closeVoting r1 r2) else None
      | _ => None
      end
  | ClickTiebreaker m r1 r2 =>
      match s with
      | RoomPage p =>
          if mounted c && enabled (tie_prompt p) then Some (triggerTiebreaker m r1 r2) else None
      | _ => None
      end
  | PollTick id r =>
      match find_timer id (timers c) with
      | Some t => Some (loadRoom (callback_code t) r)
      | None => None
      end
  | ChangeRoomCode code r =>
      if mounted c then Some (changeRoomCode code r) else None
  | Unmount =>
      if mounted c then Some unmount else None
  end.

Definition is_unmount (a : Action) : bool :=
  match a with
  | Unmount => true
  | _ => false
  end.

(** One step: the handler runs to its end and React commits. *)
Definition step (c : Component) (a : Action) : option (Component * list Event) :=
  match handler_of c a with
  | Some m =>
      let r := (if is_unmount a then m else (m ;; commit)) c in
      Some (state_after r, log_of r)
  | None => None
  end.

Fixpoint run (c : Component) (acts : list Action) : option (Component * list Event) :=
  match acts with
  | [] => Some (c, [])
  | a :: rest =>
      match step c a with
      | Some (c1, l1) =>
          match run c1 rest with
          | Some (c2, l2) => Some (c2, (l1 ++ l2)%list)
          | None => None
          end
      | None => None
      end
  end.

(** A session: mount the view on a room code, then act on it. *)
Definition session (code : string) (email : option string) (org : string)
    (first : Reply LoadData) (acts : list Action) : option (Component * list Event) :=
  let r := mount first (initial code email org) in
  match run (state_after r) acts with
  | Some (c, l) => Some (c, (log_of r ++ l)%list)
  | None => None
  end.

Inductive reachable : Component -> Prop :=
| reach_mount code email org first :
    reachable (state_after (mount first (initial code email org)))
| reach_step c a c' l :
    reachable c -> step c a = Some (c', l) -> reachable c'.

End RoomView.

(** ** The other views: every request they send and how they report failure *)

(** A request of a view whose commits are not tracked. *)
Definition send {S A} (r : Request) (reply : Reply A) : M S (Reply A) :=
  emit (Sent r) ;;
  ret reply.

Module Login.

Record State : Type := mkState {
  email : string;
  password : string;
  loading : bool
}.

Definition setLoading (v : bool) (s : State) : State :=
  {| email := email s; password := password s; loading := v |}.

(** [handleSubmit] of the login form. *)
Definition handleSubmit (reply : Reply AuthData) : M State unit :=
  s <- get ;;
  modify (setLoading true) ;;
  a <- send (POST "/auth/login" (AuthBody (email s) (password s))) reply ;;
  match a with
  | Ok data =>
      emit (AuthLogin (token data) (ad_email data)) ;;
      toast success "Logged in!" ;;
      navigate "/"
  | Failed err =>
      toast error (Js.or_else (server_message err) "Login failed")
  end ;;
  modify (setLoading false).

End Login.

Module Signup.

(** [handleSubmit] of the signup form. *)
Definition handleSubmit (reply : Reply AuthData) : M Login.State unit :=
  s <- get ;;
  modify (Login.setLoading true) ;;
  a <- send (POST "/auth/signup" (AuthBody (Login.email s) (Login.password s))) reply ;;
  match a with
  | Ok data =>
      emit (AuthLogin (token data) (ad_email data)) ;;
      toast success "Account created!" ;;
      navigate "/"
  | Failed err =>
      toast error (Js.or_else (server_message err) "Signup failed")
  end ;;
  modify (Login.setLoading false).

End Signup.

Module Home.

Record State : Type := mkState {
  roomCodeInput : string;
  creating : bool;
  newRoomTitle : string;
  newRoomDesc : string;
  newRoomMaxP : string
}.

Definition setCreating (v : bool) (s : State) : State :=
  {| roomCodeInput := roomCodeInput s; creating := v;
     newRoomTitle := newRoomTitle s; newRoomDesc := newRoomDesc s;
     newRoomMaxP := newRoomMaxP s |}.

Definition setRoomCodeInput (v : string) (s : State) : State :=
  {| roomCodeInput := v; creating := creating s;
     newRoomTitle := newRoomTitle s; newRoomDesc := newRoomDesc s;
     newRoomMaxP := newRoomMaxP s |}.

(** [createRoom] *)
Definition createRoom (reply : Reply CreateData) : M State unit :=
  s <- get ;;
  if negb (Js.truthy (Js.trim (newRoomTitle s))) then toast error "Room title is required"
  else
    modify (setCreating true) ;;
    a <- send (POST "/rooms"
                 (CreateBody (Js.trim (newRoomTitle s)) (Js.trim (newRoomDesc s))
                    (if Js.truthy (newRoomMaxP s)
                     then Js.NumberOf (newRoomMaxP s) else Js.Zero))) reply ;;
    match a with
    | Ok data =>
        toast success "Room created! Redirecting..." ;;
        navigate ("/room/" ++ cr_roomCode data)
    | Failed err =>
        toast error (Js.or_else (server_message err) "Failed to create room")
    end ;;
    modify (setCreating false).

Section UpperCase.

(** [String.prototype.toUpperCase], whatever it does to each code unit. *)
Variable toUpperCase : string -> string.

(** [onChange] of the room code field. *)
Definition onRoomCodeChange (value : string) : M State unit :=
  modify (setRoomCodeInput (toUpperCase value)).

(** [joinRoom] *)
Definition joinRoom (reply : Reply unit) : M State unit :=
  s <- get ;;
  let code := Js.trim (roomCodeInput s) in
  if negb (Js.truthy code) then toast error "Enter room code"
  else
    a <- send (POST "/rooms/join" (JoinBody (toUpperCase code))) reply ;;
    match a with
    | Ok _ =>
        toast success "Joined room! Redirecting..." ;;
        navigate ("/room/" ++ toUpperCase code)
    | Failed err =>
        toast error (Js.or_else (server_message err) "Failed to join room")
    end.

End UpperCase.

(** Upper case of the ASCII letters, for running the handlers on
    examples. *)
Definition ascii_upper (c : ascii) : ascii :=
  let n := nat_of_ascii c in
  if (97 <=? n)%nat && (n <=? 122)%nat then ascii_of_nat (n - 32) else c.

Fixpoint upper (s : string) : string :=
  match s with
  | EmptyString => EmptyString
  | String c rest => String (ascii_upper c) (upper rest)
  end.

End Home.

Module PastDecisions.

Record State : Type := mkState {
  rooms : list PastRoom;
  loading : bool
}.

(** [fetchPast], run once on mount. *)
Definition fetchPast (reply : Reply (list PastRoom)) : M State unit :=
  a <- send (GET "/rooms/past/rooms") reply ;;
  match a with
  | Ok data => modify (fun s => {| rooms := data; loading := loading s |})
  | Failed _ => toast error "Failed to load past decisions"
  end ;;
  modify (fun s => {| rooms := rooms s; loading := false |}).

End PastDecisions.

(** ** Sample data: the dinner room *)

Module Sample.

Definition pizza : Option := mkOption "p1" "Pizza".
Definition sushi : Option := mkOption "s1" "Sushi".

Definition dinner (open : bool) (fd : option FinalDecision) : Room :=
  {| room_id := "r1"; title := "Dinner"; description := "";
     creatorId := "ann@example.org"; votingOpen := open; finalDecision := fd |}.

Definition ann : option string := Some "ann@example.org".
Definition bob : option string := Some "bob@example.org".

(** Voting is open, nobody voted from this session. *)
Definition open_reply : Reply LoadData :=
  Ok (mkLoadData (dinner true None) [pizza; sushi] false).

(** Voting is open and this participant has voted. *)
Definition voted_reply : Reply LoadData :=
  Ok (mkLoadData (dinner true None) [pizza; sushi] true).

(** Options are still being collected. *)
Definition collecting_reply : Reply LoadData :=
  Ok (mkLoadData (dinner false None) [pizza; sushi] false).

(** Voting was closed on a tie that is not resolved yet; this participant
    had voted. *)
Definition closed_voted_reply : Reply LoadData :=
  Ok (mkLoadData (dinner false None) [pizza; sushi] true).

(** The room is decided: Pizza. *)
Definition decided_reply : Reply LoadData :=
  Ok (mkLoadData (dinner false (Some (mkFinalDecision "p1"))) [pizza; sushi] true).

(** The room is decided, but the chosen option is not in the list. *)
Definition dangling_reply : Reply LoadData :=
  Ok (mkLoadData (dinner false (Some (mkFinalDecision "gone"))) [pizza; sushi] false).

Definition tie_reply : Reply CloseData := Ok (mkCloseData true ["p1"; "s1"]).
Definition no_tie_reply : Reply CloseData := Ok (mkCloseData false []).

Definition refused (msg : string) {A} : Reply A := Failed (mkApiError (Some msg)).
Definition unreachable {A} : Reply A := Failed (mkApiError None).

Definition org : string := "http://localhost:3000".

End Sample.

Import RoomView.

(** ** The poll timer, as the effect should leave it *)

(** The locally held room says voting is open. *)
Definition polling (c : Component) : bool :=
  match room (hooks c) with
  | Some (_, rm) => votingOpen rm
  | None => false
  end.

Definition is_some {A} (o : option A) : bool :=
  match o with
  | Some _ => true
  | None => false
  end.

(** The intervals the last run of the poll effect left pending. *)
Definition expected_timers (p : PollEffect) : list Timer :=
  match cleanup p with
  | Some id => [mkTimer id 5000 (dep_loadRoom p)]
  | None => []
  end.

(** Holds at every point of a handler: the pending intervals are those of
    the last run of the poll effect, and that run saw the room it
    remembers. *)
Definition tracked (c : Component) : Prop :=
  (forall r, room_identity c = Some r -> r < fresh c)
  /\ match poll_effect c with
     | None => timers c = []
     | Some p =>
         timers c = expected_timers p
         /\ (forall r, dep_room p = Some r -> r < fresh c)
         /\ (room_identity c = dep_room p -> is_some (cleanup p) = polling c)
     end.

(** Holds after every commit: moreover the effect ran for the current
    room and room code. *)
Definition settled (c : Component) : Prop :=
  tracked c
  /\ match poll_effect c with
     | None => True
     | Some p => dep_room p = room_identity c /\ dep_loadRoom p = roomCode c
     end.

(** A handler keeps a property of the component. *)
Definition keeps (P : Component -> Prop) {A} (m : M Component A) : Prop :=
  forall c, P c -> P (state_after (m c)).

(** The replies to [loadRoom] an action carries are all good. *)
Definition good_action (good : Reply LoadData -> Prop) (a : Action) : Prop :=
  match a with
  | ClickAddOption _ r | ClickOpenVoting _ r | ClickVote _ r
  | ClickCloseVoting _ r | ClickTiebreaker _ _ r
  | PollTick _ r | ChangeRoomCode _ r => good r
  | _ => True
  end.

Definition any_reply (r : Reply LoadData) : Prop := True.

Definition tiebreaker_succeeds (a : Action) : bool :=
  match a with
  | ClickTiebreaker _ (Ok _) _ => true
  | _ => false
  end.

(** The request [loadRoom] sends for a room code. *)
Definition load_request (code : string) : Request := GET ("/rooms/code/" ++ code).

(** The state cells hold what a response to [loadRoom] carries. *)
Definition synchronized (h : Hooks) (d : LoadData) : Prop :=
  option_map snd (room h) = Some (ld_room d)
  /\ options h = ld_options d
  /\ hasVoted h = ld_hasVoted d
  /\ finalOptionText h = resolve_final d.

(** A room is held only once the loading screen is gone. *)
Definition loaded (c : Component) : Prop :=
  room (hooks c) <> None -> loading (hooks c) = false.




(** ** The operations that talk to the API *)

Inductive Operation : Type :=
| OpLogin
| OpSignup
| OpCreateRoom
| OpJoinRoom
| OpLoadRoom
| OpSubmitOption
| OpOpenVoting
| OpVote
| OpCloseVoting
| OpTiebreaker (m : Method)
| OpPastDecisions.

(** The state of the view an operation belongs to. *)
Definition op_state (op : Operation) : Type :=
  match op with
  | OpLogin | OpSignup => Login.State
  | OpCreateRoom | OpJoinRoom => Home.State
  | OpPastDecisions => PastDecisions.State
  | _ => Component
  end.

(** The message an operation reports when the server gave none. *)
Definition fallback_message (op : Operation) : string :=
  match op with
  | OpLogin => "Login failed"
  | OpSignup => "Signup failed"
  | OpCreateRoom => "Failed to create room"
  | OpJoinRoom => "Failed to join room"
  | OpLoadRoom => "Failed to load room data"
  | OpSubmitOption => "Failed to add option"
  | OpOpenVoting => "Failed to open voting"
  | OpVote => "Failed to vote"
  | OpCloseVoting => "Failed to close voting"
  | OpTiebreaker _ => "Failed to trigger tiebreaker"
  | OpPastDecisions => "Failed to load past decisions"
  end.

(** The operations whose [catch] reads [err.response?.data?.message]:
    all but the two GETs. *)
Definition relays_server_message (op : Operation) : bool :=
  match op with
  | OpLoadRoom | OpPastDecisions => false
  | _ => true
  end.

(** The operation gets as far as its request: the local validation
    passes and the room it addresses is held. *)
Definition sends_request (op : Operation) : op_state op -> bool :=
  match op with
  | OpLogin | OpSignup | OpPastDecisions | OpLoadRoom => fun _ => true
  | OpCreateRoom => fun s => Js.truthy (Js.trim (Home.newRoomTitle s))
  | OpJoinRoom => fun s => Js.truthy (Js.trim (Home.roomCodeInput s))
  | OpSubmitOption => fun c =>
      Js.truthy (Js.trim (optionText (hooks c))) && is_some (room (hooks c))
  | OpVote => fun c =>
      Js.truthy_opt (selectedOptionId (hooks c)) && is_some (room (hooks c))
  | OpOpenVoting | OpCloseVoting | OpTiebreaker _ => fun c => is_some (room (hooks c))
  end.

(** The log of an operation whose request is rejected with [err]. *)
Definition run_failing (toUpperCase : string -> string) (op : Operation)
    (err : ApiError) (r2 : Reply LoadData) : op_state op -> list Event :=
  match op with
  | OpLogin => fun s => log_of (Login.handleSubmit (Failed err) s)
  | OpSignup => fun s => log_of (Signup.handleSubmit (Failed err) s)
  | OpCreateRoom => fun s => log_of (Home.createRoom (Failed err) s)
  | OpJoinRoom => fun s => log_of (Home.joinRoom toUpperCase (Failed err) s)
  | OpLoadRoom => fun c => log_of (loadRoom (roomCode c) (Failed err) c)
  | OpSubmitOption => fun c => log_of (submitOption (Failed err) r2 c)
  | OpOpenVoting => fun c => log_of (openVoting (Failed err) r2 c)
  | OpVote => fun c => log_of (vote (Failed err) r2 c)
  | OpCloseVoting => fun c => log_of (closeVoting (Failed err) r2 c)
  | OpTiebreaker m => fun c => log_of (triggerTiebreaker m (Failed err) r2 c)
  | OpPastDecisions => fun s => log_of (PastDecisions.fetchPast (Failed err) s)
  end.

(** ** The session: [AuthProvider], the request interceptor and [PrivateRoute] *)

Module Auth.

(** The state of [AuthProvider]. *)
Record AuthState : Type := mkAuthState {
  token : option string;
  email : option string
}.

(** What is kept under [authStorageKey] in [localStorage], and the state
    of the provider. *)
Record World : Type := mkWorld {
  stored : option string;
  auth : AuthState
}.

(** [useState(() => ({ token: localStorage.getItem(authStorageKey), email: null }))] *)
Definition start (kept : option string) : World :=
  mkWorld kept (mkAuthState kept None).

(** The effect on [[auth.token, auth.email]]:
    [if (auth.token && !auth.email) setAuth(auth => ({ ...auth, email: 'You' }))] *)
Definition fetch_profile (w : World) : World :=
  if Js.truthy_opt (token (auth w)) && negb (Js.truthy_opt (email (auth w)))
  then mkWorld (stored w) (mkAuthState (token (auth w)) (Some "You"))
  else w.

(** [login(token, email)] *)
Definition login (tok em : string) (w : World) : World :=
  mkWorld (Some tok) (mkAuthState (Some tok) (Some em)).

(** [logout()] *)
Definition logout (w : World) : World :=
  mkWorld None (mkAuthState None None).

(** The request interceptor of [api]: the [Authorization] header it
    adds, if any. *)
Definition authorization (w : World) : option string :=
  match stored w with
  | Some t => if Js.truthy t then Some ("Bearer " ++ t) else None
  | None => None
  end.

Inductive Guarded (A : Type) : Type :=
| Children (a : A)
| NavigateTo (path : string).
Arguments Children {A} a.
Arguments NavigateTo {A} path.

(** [PrivateRoute] *)
Definition PrivateRoute {A} (w : World) (children : A) : Guarded A :=
  if negb (Js.truthy_opt (token (auth w))) then NavigateTo "/login"
  else Children children.

Inductive Action : Type :=
| Login (tok em : string)
| Logout.

(** A call of the context, followed by the effect. *)
Definition step (w : World) (a : Action) : World :=
  fetch_profile
    match a with
    | Login tok em => login tok em w
    | Logout => logout w
    end.

Inductive reachable : World -> Prop :=
| reach_start kept : reachable (fetch_profile (start kept))
| reach_step w a : reachable w -> reachable (step w a).

(** The calls of [login] a handler made, applied in order. *)
Definition after_events (log : list Event) (w : World) : World :=
  fold_left
    (fun w e => match e with
                | AuthLogin tok em => step w (Login tok em)
                | _ => w
                end)
    log w.

End Auth.

(** ** The past decisions view *)

Inductive PastScreen : Type :=
| PastLoading
| PastNone
| PastList (shown : list PastRoom).

(** What [PastDecisions] renders. *)
Definition past_render (s : PastDecisions.State) : PastScreen :=
  if PastDecisions.loading s then PastLoading
  else if (length (PastDecisions.rooms s) =? 0)%nat then PastNone
  else PastList (PastDecisions.rooms s).

(** [useState([])], [useState(true)] *)
Definition past_initial : PastDecisions.State := PastDecisions.mkState [] true.

(** ** More on the room view *)

(** No operation is in flight: the busy flags are down. *)
Definition idle (h : Hooks) : Prop :=
  voteCasting h = false /\ votingClosing h = false
  /\ tiebreaking h = false /\ tiebreakerMethod h = "".

(** Two sets of state cells that differ at most in the identity of the
    room object. *)
Definition same_cells (h1 h2 : Hooks) : Prop :=
  option_map snd (room h1) = option_map snd (room h2)
  /\ setRoom None h1 = setRoom None h2.

(** Every handle in use is older than the next one to be given out. *)
Definition handles_fresh (c : Component) : Prop :=
  forall t, In t (timers c) -> timer_id t < fresh c.

(** The kind of row the view renders for every option. *)
Definition is_plain (r : OptionRow) : bool :=
  match r with PlainRow _ => true | _ => false end.
Definition is_radio (r : OptionRow) : bool :=
  match r with RadioRow _ _ _ => true | _ => false end.
Definition is_voted (r : OptionRow) : bool :=
  match r with VotedRow _ _ => true | _ => false end.

(** The actions that work on any mounted view, whatever it shows. *)
Definition is_lifecycle (a : Action) : bool :=
  match a with
  | ChangeRoomCode _ _ | Unmount => true
  | _ => false
  end.

(** * Properties *)

(** ** Generalities on logs and handlers *)

(** A handler begins by reading the component it was rendered for. *)
Lemma bind_get {S A} (k : S -> M S A) (c : S) :
  bind get k c = k c c.
Proof. unfold bind, get. now destruct (k c c) as [[a s] l]. Qed.

Lemma state_after_bind {S A B} (m : M S A) (k : A -> M S B) (s : S) :
  state_after (bind m k s) = state_after (k (value (m s)) (state_after (m s))).
Proof.
  unfold bind, state_after, value. destruct (m s) as [[a s1] l1]. simpl.
  now destruct (k a s1) as [[b s2] l2].
Qed.

Lemma log_of_bind {S A B} (m : M S A) (k : A -> M S B) (s : S) :
  log_of (bind m k s)
  = (log_of (m s) ++ log_of (k (value (m s)) (state_after (m s))))%list.
Proof.
  unfold bind, state_after, value, log_of. destruct (m s) as [[a s1] l1]. simpl.
  now destruct (k a s1) as [[b s2] l2].
Qed.

(** ** The controls of a room whose voting is closed *)

Lemma closed_room_has_no_radio (h : Hooks) (rm : Room) (opts : list Option) :
  votingOpen rm = false ->
  flat_map (render_row h rm) opts = map (fun o => PlainRow (text o)) opts.
Proof.
  intros Hclosed. induction opts as [| o rest IH]; simpl.
  - reflexivity.
  - unfold render_row at 1. rewrite Hclosed. simpl. now rewrite IH.
Qed.

(** C1, as the code has it: in the rendered view of a room whose
    [votingOpen] flag is false, the vote button and the vote radios are
    never offered, whatever the other state cells hold, and the
    option-submission form is offered exactly when the has-voted flag is
    false. *)
Theorem C1_closed_room_controls (c : Component) (ref : nat) (rm : Room) :
  loading (hooks c) = false ->
  room (hooks c) = Some (ref, rm) ->
  votingOpen rm = false ->
  offers_vote (render c) = false
  /\ (forall id, offers_radio (render c) id = false)
  /\ offers_submitOption (render c) = negb (hasVoted (hooks c)).
Proof.
  intros Hloaded Hroom Hclosed.
  unfold render. rewrite Hloaded, Hroom. simpl.
  rewrite Hclosed. simpl. repeat split.
  intros id. rewrite (closed_room_has_no_radio _ _ _ Hclosed).
  induction (options (hooks c)); simpl; auto.
Qed.

Lemma C1_closed_room_controls_witness :
  let c := state_after (mount Sample.collecting_reply
                          (initial "DINNER" Sample.bob Sample.org)) in
  offers_vote (render c) = false
  /\ (forall id, offers_radio (render c) id = false)
  /\ offers_submitOption (render c) = negb (hasVoted (hooks c)).
Proof.
  intros c.
  apply (C1_closed_room_controls c 0 (Sample.dinner false None));
    reflexivity.
Defined.

(** C1 as stated fails: a participant who voted looks at the room after
    voting was closed; [votingOpen] is false and the submission form is
    not rendered. *)
Lemma C1_submit_hidden_once_voted :
  ~ (forall c ref rm,
       reachable c ->
       room (hooks c) = Some (ref, rm) ->
       votingOpen rm = false ->
       offers_submitOption (render c) = true /\ offers_vote (render c) = false).
Proof.
  intros claim.
  destruct (claim (state_after (mount Sample.closed_voted_reply
                                  (initial "DINNER" Sample.bob Sample.org)))
                  0 (Sample.dinner false None)) as [Hsubmit _].
  - constructor.
  - reflexivity.
  - reflexivity.
  - discriminate Hsubmit.
Qed.

(** ** Properties that every handler keeps *)

Section Frame.

(** A property of the component and the replies to [loadRoom] under
    which it survives a load. *)
Variable P : Component -> Prop.
Variable good : Reply LoadData -> Prop.

Hypothesis P_set : forall f c,
  (forall h, room (f h) = room h) ->
  (forall h, loading (f h) = loading h) ->
  (forall h, finalOptionText (f h) = finalOptionText h) ->
  P c -> P (with_hooks f c).
Hypothesis P_effects : forall c, P c -> P (run_effects c).
Hypothesis P_roomCode : forall code c, P c -> P (set_roomCode code c).
Hypothesis P_load : forall code reply, good reply -> keeps P (loadRoom code reply).

Lemma keeps_ret {A} (a : A) : keeps P (ret a).
Proof. intros c H. exact H. Qed.

Lemma keeps_get : keeps P get.
Proof. intros c H. exact H. Qed.

Lemma keeps_emit (e : Event) : keeps P (emit e).
Proof. intros c H. exact H. Qed.

Lemma keeps_toast (k : ToastKind) (msg : string) : keeps P (toast k msg).
Proof. apply keeps_emit. Qed.

Lemma keeps_bind {A B} (m : M Component A) (k : A -> M Component B) :
  keeps P m -> (forall a, keeps P (k a)) -> keeps P (bind m k).
Proof.
  intros Hm Hk c H. rewrite state_after_bind.
  apply (Hk _ _ (Hm c H)).
Qed.

Lemma keeps_set (f : Hooks -> Hooks) :
  (forall h, room (f h) = room h) ->
  (forall h, loading (f h) = loading h) ->
  (forall h, finalOptionText (f h) = finalOptionText h) ->
  keeps P (set f).
Proof. intros H1 H2 H3 c H. apply (P_set f c H1 H2 H3 H). Qed.

Lemma keeps_commit : keeps P commit.
Proof. intros c H. apply (P_effects c H). Qed.

Lemma keeps_request {A} (r : Request) (reply : Reply A) :
  keeps P (request r reply).
Proof.
  unfold request.
  apply keeps_bind; [apply keeps_emit | intros _].
  apply keeps_bind; [apply keeps_commit | intros _].
  apply keeps_ret.
Qed.

(** A request hands its reply to what follows. *)
Lemma keeps_bind_request {A B} (r : Request) (reply : Reply A)
    (k : Reply A -> M Component B) :
  keeps P (k reply) -> keeps P (bind (request r reply) k).
Proof.
  intros Hk c H. rewrite state_after_bind.
  apply Hk, P_effects, H.
Qed.

Lemma keeps_with_room {A} (h : Hooks) (k : Room -> M Component (Reply A)) :
  (forall rm, keeps P (k rm)) -> keeps P (with_room h k).
Proof.
  intros Hk. unfold with_room. destruct (room h) as [[ref rm]|].
  - apply Hk.
  - apply keeps_ret.
Qed.

(** One step down the syntax of a handler. *)
Ltac keeps_step :=
  cbv beta iota;
  lazymatch goal with
  | |- keeps _ (bind (request _ _) _) => apply keeps_bind_request
  | |- keeps _ (bind _ _) => apply keeps_bind; [| intros ?]
  | |- keeps _ (ret _) => apply keeps_ret
  | |- keeps _ get => apply keeps_get
  | |- keeps _ (toast _ _) => apply keeps_toast
  | |- keeps _ (emit _) => apply keeps_emit
  | |- keeps _ commit => apply keeps_commit
  | |- keeps _ (request _ _) => apply keeps_request
  | |- keeps _ (loadRoom _ _) => apply P_load; assumption
  | |- keeps _ (set _) => apply keeps_set; reflexivity
  | |- keeps _ (with_room _ _) => apply keeps_with_room; intros ?
  | |- keeps _ (match ?x with _ => _ end) => destruct x
  end.

Ltac keeps_auto := repeat keeps_step.

Lemma keeps_submitOption r1 r2 : good r2 -> keeps P (submitOption r1 r2).
Proof. intros Hgood. unfold submitOption. keeps_auto. Qed.

Lemma keeps_openVoting r1 r2 : good r2 -> keeps P (openVoting r1 r2).
Proof. intros Hgood. unfold openVoting. keeps_auto. Qed.

Lemma keeps_vote r1 r2 : good r2 -> keeps P (vote r1 r2).
Proof. intros Hgood. unfold vote. keeps_auto. Qed.

Lemma keeps_closeVoting r1 r2 : good r2 -> keeps P (closeVoting r1 r2).
Proof. intros Hgood. unfold closeVoting. keeps_auto. Qed.

Lemma keeps_failed_tiebreaker m err r2 :
  keeps P (triggerTiebreaker m (Failed err) r2).
Proof. unfold triggerTiebreaker. keeps_auto. Qed.

(** A tiebreaker that succeeds writes [finalOptionText]; the property
    has to bear that. *)
Lemma keeps_triggerTiebreaker m r1 r2 :
  (forall v c, P c -> P (with_hooks (setFinalOptionText v) c)) ->
  good r2 -> keeps P (triggerTiebreaker m r1 r2).
Proof.
  intros Hfinal Hgood. unfold triggerTiebreaker. keeps_auto.
  intros c H. apply Hfinal, H.
Qed.

Lemma keeps_changeRoomCode code r : good r -> keeps P (changeRoomCode code r).
Proof.
  intros Hgood. unfold changeRoomCode. keeps_auto.
  intros c H. apply P_roomCode, H.
Qed.

Lemma keeps_mount r : good r -> keeps P (mount r).
Proof. intros Hgood. unfold mount. keeps_auto. Qed.

(** Every handler a step can run keeps the property, teardown and the
    successful tiebreaker apart. *)
Lemma keeps_handler (c : Component) (a : Action) (m : M Component unit) :
  handler_of c a = Some m -> is_unmount a = false ->
  tiebreaker_succeeds a = false -> good_action good a ->
  keeps P m.
Proof.
  intros Hm Hnot Htb Hgood. destruct a; simpl in Hm, Hgood; try discriminate Hnot;
    repeat match type of Hm with
           | (match ?x with _ => _ end) = Some _ => destruct x; try discriminate Hm
           end;
    injection Hm as <-.
  - apply keeps_set; reflexivity.
  - apply keeps_set; reflexivity.
  - now apply keeps_submitOption.
  - now apply keeps_openVoting.
  - now apply keeps_vote.
  - now apply keeps_closeVoting.
  - destruct r1; [discriminate Htb | apply keeps_failed_tiebreaker].
  - now apply P_load.
  - now apply keeps_changeRoomCode.
Qed.

Lemma keeps_handler_final (c : Component) (a : Action) (m : M Component unit) :
  (forall v c, P c -> P (with_hooks (setFinalOptionText v) c)) ->
  handler_of c a = Some m -> is_unmount a = false -> good_action good a ->
  keeps P m.
Proof.
  intros Hfinal Hm Hnot Hgood.
  destruct (tiebreaker_succeeds a) eqn:Htb.
  - destruct a; try discriminate Htb. simpl in Hm, Hgood.
    repeat match type of Hm with
           | (match ?x with _ => _ end) = Some _ => destruct x; try discriminate Hm
           end.
    injection Hm as <-. now apply keeps_triggerTiebreaker.
  - now apply (keeps_handler c a m).
Qed.


(** A step other than teardown keeps the property. *)
Lemma step_keeps (c : Component) (a : Action) (c' : Component) (l : list Event) :
  (forall v c, P c -> P (with_hooks (setFinalOptionText v) c)) ->
  step c a = Some (c', l) -> is_unmount a = false -> good_action good a ->
  P c -> P c'.
Proof.
  intros Hfinal Hstep Hnot Hgood H. unfold step in Hstep.
  destruct (handler_of c a) as [m|] eqn:Hm; [| discriminate].
  injection Hstep as <- _. rewrite Hnot, state_after_bind.
  apply keeps_commit.
  apply (keeps_handler_final c a m Hfinal Hm Hnot Hgood c H).
Qed.

End Frame.

(** ** The poll timer *)

Lemma tracked_with_hooks (f : Hooks -> Hooks) (c : Component) :
  (forall h, room (f h) = room h) ->
  tracked c -> tracked (with_hooks f c).
Proof.
  intros Hf. unfold tracked, room_identity, polling. simpl.
  rewrite Hf. auto.
Qed.

Lemma clearInterval_own (id : nat) (d : Z) (code : string) :
  clearInterval id [mkTimer id d code] = [].
Proof. unfold clearInterval. simpl. now rewrite Nat.eqb_refl. Qed.

Lemma eqb_identity_eq (a b : option nat) :
  eqb_identity a b = true <-> a = b.
Proof.
  destruct a as [x|], b as [y|]; simpl; split; intros H;
    try discriminate; try reflexivity.
  - apply Nat.eqb_eq in H. now subst.
  - injection H as ->. apply Nat.eqb_refl.
Qed.

(** The cleanup leaves no interval behind. *)
Lemma stop_poll_clears (c : Component) :
  tracked c -> timers (stop_poll c) = [].
Proof.
  intros [_ H]. unfold stop_poll.
  destruct (poll_effect c) as [[dr dl [id|]]|]; simpl in *.
  - destruct H as [-> _]. apply clearInterval_own.
  - now destruct H.
  - exact H.
Qed.

Lemma stop_poll_rest (c : Component) :
  hooks (stop_poll c) = hooks c /\ roomCode (stop_poll c) = roomCode c
  /\ fresh (stop_poll c) = fresh c /\ auth_email (stop_poll c) = auth_email c.
Proof.
  unfold stop_poll. destruct (poll_effect c) as [[dr dl [id|]]|]; simpl; auto.
Qed.

(** The body of the effect, run with no interval pending, settles the
    component. *)
Lemma start_poll_settles (c : Component) :
  (forall r, room_identity c = Some r -> r < fresh c) ->
  timers c = [] ->
  settled (start_poll c).
Proof.
  intros Hfresh Hnone. unfold start_poll, settled, tracked, polling.
  destruct (room (hooks c)) as [[ref rm]|] eqn:Hroom; simpl.
  - destruct (votingOpen rm) eqn:Hopen; simpl;
      unfold room_identity, expected_timers; simpl; rewrite Hroom; simpl;
      rewrite ?Hnone; unfold room_identity in Hfresh; rewrite Hroom in Hfresh;
      simpl in Hfresh; repeat split; auto.
    + intros r Hr. specialize (Hfresh r Hr). lia.
    + intros r Hr. specialize (Hfresh r Hr). lia.
  - unfold room_identity, expected_timers; simpl; rewrite Hroom; simpl.
    repeat split; auto; discriminate.
Qed.

(** The effects run at a commit settle a tracked component. *)
Lemma run_effects_settles (c : Component) :
  tracked c -> settled (run_effects c).
Proof.
  intros Ht. unfold run_effects.
  destruct (poll_effect c) as [p|] eqn:Hp.
  - destruct (eqb_identity (dep_room p) (room_identity c)
              && (dep_loadRoom p =? roomCode c)) eqn:Hsame.
    + apply andb_true_iff in Hsame as [Hr Hc].
      apply eqb_identity_eq in Hr. apply String.eqb_eq in Hc.
      split; [exact Ht | rewrite Hp; auto].
    + destruct (stop_poll_rest c) as (Hh & Hcode & Hf & _).
      apply start_poll_settles.
      * unfold room_identity. rewrite Hh, Hf. apply Ht.
      * apply stop_poll_clears, Ht.
  - apply start_poll_settles.
    + apply Ht.
    + destruct Ht as [_ Ht]. now rewrite Hp in Ht.
Qed.

Lemma settled_tracked (c : Component) : settled c -> tracked c.
Proof. now intros [H _]. Qed.

Lemma commit_settles (c : Component) :
  tracked c -> settled (state_after (commit c)).
Proof. intros H. apply (run_effects_settles c H). Qed.

(** Storing a freshly parsed room keeps the component tracked: the
    effect never ran with the new object. *)
Lemma tracked_loadRoom (code : string) (reply : Reply LoadData) :
  keeps tracked (loadRoom code reply).
Proof.
  intros c H.
  pose proof (run_effects_settles c H) as [Hsettled _].
  destruct reply as [data | err]; unfold loadRoom, bind, state_after; simpl.
  - do 5 (apply tracked_with_hooks; [reflexivity |]).
    destruct Hsettled as [Hfresh Ht].
    unfold tracked, room_identity, polling. simpl. split.
    + intros r [= <-]. lia.
    + destruct (poll_effect (run_effects c)) as [p|]; [| exact Ht].
      destruct Ht as (Htimers & Hdep & _). repeat split; auto.
      * intros r Hr. specialize (Hdep r Hr). lia.
      * intros Hsame. symmetry in Hsame. specialize (Hdep _ Hsame). lia.
  - apply tracked_with_hooks; [reflexivity | exact Hsettled].
Qed.

Lemma tracked_set_roomCode (code : string) (c : Component) :
  tracked c -> tracked (set_roomCode code c).
Proof. unfold tracked, room_identity, polling. simpl. auto. Qed.

Lemma tracked_initial code email org : tracked (initial code email org).
Proof. unfold tracked, room_identity. simpl. split; [discriminate | reflexivity]. Qed.

Lemma good_any (a : Action) : good_action any_reply a.
Proof. destruct a; exact I. Qed.

Lemma tracked_set (f : Hooks -> Hooks) (c : Component) :
  (forall h, room (f h) = room h) ->
  (forall h, loading (f h) = loading h) ->
  (forall h, finalOptionText (f h) = finalOptionText h) ->
  tracked c -> tracked (with_hooks f c).
Proof. intros Hroom _ _. now apply tracked_with_hooks. Qed.

Lemma tracked_run_effects (c : Component) : tracked c -> tracked (run_effects c).
Proof. intros H. apply settled_tracked, run_effects_settles, H. Qed.

Lemma tracked_load (code : string) (reply : Reply LoadData) :
  any_reply reply -> keeps tracked (loadRoom code reply).
Proof. intros _. apply tracked_loadRoom. Qed.

Lemma tracked_final (v : option string) (c : Component) :
  tracked c -> tracked (with_hooks (setFinalOptionText v) c).
Proof. now apply tracked_with_hooks. Qed.

Lemma unmount_result (c : Component) :
  tracked c ->
  timers (state_after (unmount c)) = [] /\ poll_effect (state_after (unmount c)) = None
  /\ hooks (state_after (unmount c)) = hooks c
  /\ fresh (state_after (unmount c)) = fresh c.
Proof.
  intros H. unfold unmount, bind, modify, state_after. simpl.
  destruct (stop_poll_rest c) as (Hh & _ & Hf & _).
  repeat split; auto. apply stop_poll_clears, H.
Qed.

(** A step ends on a commit (or on teardown), which settles the
    component. *)
Lemma step_settles (c : Component) (a : Action) (c' : Component) (l : list Event) :
  step c a = Some (c', l) -> tracked c -> settled c'.
Proof.
  intros Hstep Ht. unfold step in Hstep.
  destruct (handler_of c a) as [m|] eqn:Hm; [| discriminate].
  injection Hstep as <- _.
  destruct (is_unmount a) eqn:Hun.
  - destruct a; try discriminate Hun. simpl in Hm.
    destruct (mounted c); [| discriminate]. injection Hm as <-.
    destruct (unmount_result c Ht) as (Htm & Hp & Hh & Hf).
    unfold settled, tracked. rewrite Hp, Htm.
    repeat split; auto.
    unfold room_identity. rewrite Hh, Hf. apply Ht.
  - rewrite state_after_bind.
    apply commit_settles.
    refine (keeps_handler_final tracked any_reply _ _ _ _ c a m _ Hm Hun (good_any a) c Ht);
      auto using tracked_set, tracked_run_effects, tracked_load, tracked_final,
        tracked_set_roomCode.
Qed.

(** Every reachable state of the room view is settled. *)
Lemma reachable_settled (c : Component) : reachable c -> settled c.
Proof.
  induction 1 as [code email org first | c a c' l Hreach IH Hstep].
  - unfold mount. rewrite !state_after_bind.
    apply commit_settles, tracked_loadRoom, tracked_run_effects, tracked_initial.
  - apply (step_settles c a c' l Hstep), settled_tracked, IH.
Qed.

Lemma run_effects_rest (c : Component) :
  hooks (run_effects c) = hooks c /\ roomCode (run_effects c) = roomCode c
  /\ auth_email (run_effects c) = auth_email c.
Proof.
  unfold run_effects, start_poll.
  destruct (stop_poll_rest c) as (Hh & Hc & _ & He).
  repeat match goal with
         | |- context [match ?x with _ => _ end] => destruct x eqn:?; simpl
         end; rewrite ?Hh, ?Hc, ?He; auto.
Qed.

Lemma loadRoom_roomCode (code : string) (reply : Reply LoadData) (c : Component) :
  roomCode (state_after (loadRoom code reply c)) = roomCode c.
Proof.
  destruct (run_effects_rest c) as (_ & Hc & _).
  destruct reply; unfold loadRoom, bind, state_after; simpl; exact Hc.
Qed.

Lemma changeRoomCode_roomCode (code : string) (reply : Reply LoadData) (c : Component) :
  roomCode (state_after ((changeRoomCode code reply ;; commit) c)) = code.
Proof.
  rewrite state_after_bind.
  change (roomCode (run_effects (state_after (changeRoomCode code reply c))) = code).
  destruct (run_effects_rest (state_after (changeRoomCode code reply c))) as (_ & -> & _).
  unfold changeRoomCode. rewrite bind_get.
  destruct (roomCode c =? code) eqn:Hsame.
  - apply String.eqb_eq in Hsame. exact Hsame.
  - rewrite !state_after_bind.
    change (roomCode (run_effects (state_after
              (loadRoom code reply (run_effects (set_roomCode code c))))) = code).
    destruct (run_effects_rest (state_after
                (loadRoom code reply (run_effects (set_roomCode code c)))))
      as (_ & -> & _).
    rewrite loadRoom_roomCode.
    destruct (run_effects_rest (set_roomCode code c)) as (_ & -> & _).
    reflexivity.
Qed.

(** What a settled component has pending. *)
Lemma settled_timers (c : Component) :
  settled c ->
  timers c =
    if mounted c && polling c then
      match poll_effect c with
      | Some {| cleanup := Some id |} => [mkTimer id 5000 (roomCode c)]
      | _ => []
      end
    else [].
Proof.
  intros [[_ Ht] Hdeps]. unfold mounted.
  destruct (poll_effect c) as [[dr dl cl]|]; simpl in *; [| exact Ht].
  destruct Ht as (Htimers & _ & Hsame), Hdeps as [Hr Hc].
  symmetry in Hr. specialize (Hsame Hr). subst dl.
  unfold expected_timers in Htimers. simpl in Htimers.
  destruct (polling c), cl; simpl in Hsame; try discriminate; exact Htimers.
Qed.

Lemma settled_polling (c : Component) :
  settled c -> mounted c = true -> polling c = true ->
  exists id, timers c = [mkTimer id 5000 (roomCode c)].
Proof.
  intros Hs Hm Hp. pose proof (settled_timers c Hs) as Ht.
  rewrite Hm, Hp in Ht. simpl in Ht.
  destruct Hs as [[_ Htr] Hdeps]. unfold mounted in Hm.
  destruct (poll_effect c) as [[dr dl [id|]]|]; try discriminate Hm.
  - now exists id.
  - simpl in *. destruct Htr as (_ & _ & Hsame), Hdeps as [Hr _].
    symmetry in Hr. specialize (Hsame Hr). rewrite Hp in Hsame. discriminate.
Qed.

(** C3, as the code has it: in every reachable state of a mounted room
    view whose locally held room has [votingOpen] true, exactly one
    interval is pending; its period is 5000 ms and its tick invokes
    [loadRoom] for the current room code.  No interval is pending once the
    locally held room has [votingOpen] false or the view is unmounted:
    teardown clears the interval, and a change of room code clears the
    interval of the old code. *)
Theorem C3_poll_timer (c : Component) :
  reachable c ->
  (mounted c = true -> polling c = true ->
     exists id, timers c = [mkTimer id 5000 (roomCode c)]
       /\ forall reply, handler_of c (PollTick id reply)
                        = Some (loadRoom (roomCode c) reply))
  /\ (polling c = false -> timers c = [])
  /\ (mounted c = false -> timers c = [])
  /\ (forall c' l, step c Unmount = Some (c', l) ->
        mounted c' = false /\ timers c' = [])
  /\ (forall code reply c' l,
        step c (ChangeRoomCode code reply) = Some (c', l) ->
        roomCode c <> code ->
        forall t, In t (timers c) -> ~ In t (timers c')).
Proof.
  intros Hreach. pose proof (reachable_settled c Hreach) as Hs.
  pose proof (settled_timers c Hs) as Ht.
  split; [| split; [| split; [| split]]].
  - intros Hm Hp. destruct (settled_polling c Hs Hm Hp) as [id Hid].
    exists id. split; [exact Hid |].
    intros reply. simpl. rewrite Hid. unfold find_timer. simpl.
    now rewrite Nat.eqb_refl.
  - intros Hp. rewrite Hp, andb_false_r in Ht. exact Ht.
  - intros Hm. rewrite Hm in Ht. exact Ht.
  - intros c' l Hstep. unfold step in Hstep. simpl in Hstep.
    destruct (mounted c); [| discriminate]. injection Hstep as <- _.
    destruct (unmount_result c (settled_tracked c Hs)) as (Htm & Hp & _).
    unfold mounted. now rewrite Hp, Htm.
  - intros code reply c' l Hstep Hdiff t Hin Hin'.
    pose proof (settled_timers c' (reachable_settled c'
                  (reach_step c _ c' l Hreach Hstep))) as Ht'.
    assert (Hcode : roomCode c' = code).
    { unfold step in Hstep. simpl in Hstep.
      destruct (mounted c); [| discriminate]. injection Hstep as <- _.
      apply changeRoomCode_roomCode. }
    assert (Hold : callback_code t = roomCode c).
    { rewrite Ht in Hin.
      destruct (mounted c && polling c); [| contradiction].
      destruct (poll_effect c) as [[dr dl [id|]]|]; try contradiction.
      destruct Hin as [<- | []]. reflexivity. }
    assert (Hnew : callback_code t = roomCode c').
    { rewrite Ht' in Hin'.
      destruct (mounted c' && polling c'); [| contradiction].
      destruct (poll_effect c') as [[dr dl [id|]]|]; try contradiction.
      destruct Hin' as [<- | []]. reflexivity. }
    congruence.
Qed.

Lemma C3_poll_timer_witness :
  let c := state_after (mount Sample.open_reply
                          (initial "DINNER" Sample.bob Sample.org)) in
  reachable c
  /\ timers c = [mkTimer 1 5000 "DINNER"]
  /\ (forall c' l, step c Unmount = Some (c', l) ->
        mounted c' = false /\ timers c' = []).
Proof.
  intros c.
  assert (Hreach : reachable c) by constructor.
  destruct (C3_poll_timer c Hreach) as (Hone & _ & _ & Hunmount & _).
  split; [exact Hreach | split; [| exact Hunmount]].
  destruct (Hone eq_refl eq_refl) as (id & Hid & _).
  reflexivity.
Defined.

(** C3 as stated fails: the creator closes voting, the server answers
    with a tie, and the interval is still pending although voting is
    closed; [closeVoting] does not reload on a tie, so the locally held
    room keeps [votingOpen] true until a later load. *)
Lemma C3_tie_close_keeps_polling :
  exists c l,
    session "DINNER" Sample.ann Sample.org Sample.open_reply
      [ClickCloseVoting Sample.tie_reply Sample.unreachable] = Some (c, l)
    /\ In (Toast success "Voting closed!") l
    /\ mounted c = true
    /\ timers c = [mkTimer 1 5000 "DINNER"].
Proof.
  eexists. eexists. split; [vm_compute; reflexivity |].
  split; [| split; reflexivity].
  simpl. tauto.
Qed.

(** ** What the effects leave alone *)

Lemma hooks_run_effects (c : Component) : hooks (run_effects c) = hooks c.
Proof. apply run_effects_rest. Qed.

Lemma roomCode_run_effects (c : Component) : roomCode (run_effects c) = roomCode c.
Proof. apply run_effects_rest. Qed.

Lemma auth_email_run_effects (c : Component) : auth_email (run_effects c) = auth_email c.
Proof. apply run_effects_rest. Qed.

Lemma origin_run_effects (c : Component) : origin (run_effects c) = origin c.
Proof.
  unfold run_effects, start_poll, stop_poll.
  repeat match goal with
         | |- context [match ?x with _ => _ end] => destruct x eqn:?; simpl
         end; auto.
Qed.

Create Rewrite HintDb effects.
#[local] Hint Rewrite hooks_run_effects roomCode_run_effects
  auth_email_run_effects origin_run_effects : effects.

Arguments run_effects : simpl never.

(** Unfold a handler on a component and push the projections through
    the effects. *)
Ltac run_handler :=
  unfold state_after, log_of, bind, request, commit, with_room, set, toast,
    navigate, emit, modify, get, ret;
  simpl;
  repeat (progress autorewrite with effects; simpl).

(** ** Closing the vote *)

(** C2, as the code has it: when the server accepts the request,
    [closeVoting] has exactly two outcomes.  No tie: the controller
    resynchronizes through [loadRoom] and leaves the tie state as it was.
    Tie: the tied option ids of the reply become the tie state and no
    resynchronization is performed, so room, options and
    [finalOptionText] keep their values. *)
Theorem C2_closeVoting_outcomes (c : Component) (ref : nat) (rm : Room)
    (data : CloseData) (r2 : Reply LoadData) :
  room (hooks c) = Some (ref, rm) ->
  let res := closeVoting (Ok data) r2 c in
  let h' := hooks (state_after res) in
  if tie data then
    requests (log_of res) = [POST ("/rooms/" ++ room_id rm ++ "/close-voting") NoBody]
    /\ tiedOptionIds h' = cd_tiedOptionIds data
    /\ room h' = room (hooks c)
    /\ options h' = options (hooks c)
    /\ finalOptionText h' = finalOptionText (hooks c)
  else
    requests (log_of res)
      = [POST ("/rooms/" ++ room_id rm ++ "/close-voting") NoBody;
         load_request (roomCode c)]
    /\ tiedOptionIds h' = tiedOptionIds (hooks c)
    /\ match r2 with
       | Ok d => synchronized h' d
       | Failed _ =>
           room h' = room (hooks c)
           /\ options h' = options (hooks c)
           /\ finalOptionText h' = finalOptionText (hooks c)
       end.
Proof.
  intros Hroom res h'. subst h' res. unfold closeVoting.
  rewrite bind_get, Hroom.
  destruct data as [[|] ids]; simpl tie; simpl cd_tiedOptionIds; cbv iota.
  - run_handler. repeat split; auto.
  - destruct r2 as [d | err]; unfold loadRoom, new_object, synchronized, load_request;
      run_handler; repeat split; auto.
Qed.

Lemma C2_closeVoting_outcomes_witness :
  let c := state_after (mount Sample.open_reply
                          (initial "DINNER" Sample.ann Sample.org)) in
  let res := closeVoting Sample.tie_reply Sample.unreachable c in
  requests (log_of res) = [POST "/rooms/r1/close-voting" NoBody]
  /\ tiedOptionIds (hooks (state_after res)) = ["p1"; "s1"]
  /\ finalOptionText (hooks (state_after res)) = None.
Proof.
  intros c res.
  pose proof (C2_closeVoting_outcomes c 0 (Sample.dinner true None)
                (mkCloseData true ["p1"; "s1"]) Sample.unreachable eq_refl) as H.
  simpl in H. destruct H as (Hreq & Htied & _ & _ & Hfinal).
  repeat split; assumption.
Defined.

(** C2 as stated fails: the first close reports a tie, which is stored;
    the room is still open locally, so the creator closes again; this
    time the server reports no tie, the controller reloads, and the tie
    state is still the one of the first close. *)
Lemma C2_tie_state_not_cleared :
  exists c l,
    session "DINNER" Sample.ann Sample.org Sample.open_reply
      [ClickCloseVoting Sample.tie_reply Sample.unreachable;
       ClickCloseVoting Sample.no_tie_reply Sample.decided_reply] = Some (c, l)
    /\ In (Toast info "Decision made!") l
    /\ tiedOptionIds (hooks c) = ["p1"; "s1"].
Proof.
  eexists. eexists. split; [vm_compute; reflexivity |].
  split; [simpl; tauto | reflexivity].
Qed.

(** ** The controls of the creator *)

Lemma loaded_set (f : Hooks -> Hooks) (c : Component) :
  (forall h, room (f h) = room h) ->
  (forall h, loading (f h) = loading h) ->
  (forall h, finalOptionText (f h) = finalOptionText h) ->
  loaded c -> loaded (with_hooks f c).
Proof. intros Hr Hl _. unfold loaded. simpl. now rewrite Hr, Hl. Qed.

Lemma loaded_run_effects (c : Component) : loaded c -> loaded (run_effects c).
Proof. unfold loaded. now rewrite hooks_run_effects. Qed.

Lemma loaded_set_roomCode (code : string) (c : Component) :
  loaded c -> loaded (set_roomCode code c).
Proof. auto. Qed.

Lemma loaded_load (code : string) (reply : Reply LoadData) :
  any_reply reply -> keeps loaded (loadRoom code reply).
Proof.
  intros _ c _. unfold loaded.
  destruct reply; unfold loadRoom, new_object; run_handler; intros _; reflexivity.
Qed.

Lemma loaded_final (v : option string) (c : Component) :
  loaded c -> loaded (with_hooks (setFinalOptionText v) c).
Proof. auto. Qed.

Lemma reachable_loaded (c : Component) : reachable c -> loaded c.
Proof.
  induction 1 as [code email org first | c a c' l Hreach IH Hstep].
  - refine (keeps_mount loaded any_reply _ _ first I _ _);
      auto using loaded_run_effects, loaded_load.
    intros H. now contradiction H.
  - destruct (is_unmount a) eqn:Hun.
    + unfold step in Hstep. destruct a; try discriminate Hun. simpl in Hstep.
      destruct (mounted c); [| discriminate]. injection Hstep as <- _.
      unfold loaded, unmount. run_handler.
      destruct (stop_poll_rest c) as (-> & _). exact IH.
    + refine (step_keeps loaded any_reply _ _ _ _ c a c' l _ Hstep Hun (good_any a) IH);
        auto using loaded_set, loaded_run_effects, loaded_load, loaded_final,
          loaded_set_roomCode.
Qed.

Lemma isCreator_room (c : Component) :
  isCreator c = true <->
  exists ref rm, room (hooks c) = Some (ref, rm) /\ auth_email c = Some (creatorId rm).
Proof.
  unfold isCreator. split.
  - destruct (room (hooks c)) as [[ref rm]|]; [| discriminate].
    destruct (auth_email c) as [email|]; [| discriminate].
    intros H. apply String.eqb_eq in H. subst. now exists ref, rm.
  - intros (ref & rm & -> & ->). apply String.eqb_refl.
Qed.

(** C4, as the code has it: the Open Voting and Close Voting buttons and
    the tiebreaker prompt are rendered only when [isCreator] holds, where
    [isCreator] says that the creator of the held room is the current
    user; the tiebreaker prompt is rendered exactly when [isCreator]
    holds, [tiedOptionIds] is non-empty and [finalOptionText] is falsy
    (null or the empty string); a non-creator sees neither Open Voting
    nor Close Voting, whatever the server sent. *)
Theorem C4_creator_controls (c : Component) :
  reachable c ->
  (offers_openVoting (render c) = true -> isCreator c = true)
  /\ (offers_closeVoting (render c) = true -> isCreator c = true)
  /\ (offers_tiebreaker (render c) = true -> isCreator c = true)
  /\ (isCreator c = true <->
        exists ref rm, room (hooks c) = Some (ref, rm)
                       /\ auth_email c = Some (creatorId rm))
  /\ offers_tiebreaker (render c)
       = isCreator c && (0 <? length (tiedOptionIds (hooks c)))%nat
         && negb (Js.truthy_opt (finalOptionText (hooks c)))
  /\ (isCreator c = false ->
        offers_openVoting (render c) = false /\ offers_closeVoting (render c) = false).
Proof.
  intros Hreach. pose proof (reachable_loaded c Hreach) as Hloaded.
  assert (Htie : offers_tiebreaker (render c)
                 = isCreator c && (0 <? length (tiedOptionIds (hooks c)))%nat
                   && negb (Js.truthy_opt (finalOptionText (hooks c)))).
  { unfold render. destruct (room (hooks c)) as [[ref rm]|] eqn:Hroom.
    - assert (Hl : loading (hooks c) = false)
        by (apply Hloaded; rewrite Hroom; discriminate).
      rewrite Hl. simpl.
      now destruct (isCreator c && (0 <? length (tiedOptionIds (hooks c)))%nat
                    && negb (Js.truthy_opt (finalOptionText (hooks c)))).
    - assert (Hnot : isCreator c = false) by (unfold isCreator; now rewrite Hroom).
      rewrite Hnot. now destruct (loading (hooks c)). }
  assert (Hopen : offers_openVoting (render c) = true -> isCreator c = true).
  { unfold render. destruct (loading (hooks c)); [discriminate |].
    destruct (room (hooks c)) as [[ref rm]|]; [| discriminate]. simpl.
    destruct (isCreator c); [reflexivity | discriminate]. }
  assert (Hclose : offers_closeVoting (render c) = true -> isCreator c = true).
  { unfold render. destruct (loading (hooks c)); [discriminate |].
    destruct (room (hooks c)) as [[ref rm]|]; [| discriminate]. simpl.
    destruct (isCreator c); [reflexivity | discriminate]. }
  repeat split.
  - exact Hopen.
  - exact Hclose.
  - rewrite Htie. destruct (isCreator c); [reflexivity | discriminate].
  - apply isCreator_room.
  - apply isCreator_room.
  - exact Htie.
  - destruct (offers_openVoting (render c)); [| reflexivity].
    rewrite Hopen in H; [discriminate | reflexivity].
  - destruct (offers_closeVoting (render c)); [| reflexivity].
    rewrite Hclose in H; [discriminate | reflexivity].
Qed.

Lemma C4_creator_controls_witness :
  let c := state_after (mount Sample.open_reply
                          (initial "DINNER" Sample.bob Sample.org)) in
  reachable c
  /\ isCreator c = false
  /\ offers_openVoting (render c) = false
  /\ offers_closeVoting (render c) = false.
Proof.
  intros c.
  assert (Hreach : reachable c) by constructor.
  destruct (C4_creator_controls c Hreach) as (_ & _ & _ & _ & _ & Hnon).
  destruct (Hnon eq_refl) as [Hopen Hclose].
  repeat split; assumption.
Defined.

(** C4 as stated fails: after a tie the poll brings a room whose final
    decision names an option that is not in the list; [loadRoom] sets
    [finalOptionText] to the empty string, which is not null, and the
    tiebreaker prompt is rendered. *)
Lemma C4_prompt_with_empty_text :
  exists c l,
    session "DINNER" Sample.ann Sample.org Sample.open_reply
      [ClickCloseVoting Sample.tie_reply Sample.unreachable;
       PollTick 1 Sample.dangling_reply] = Some (c, l)
    /\ isCreator c = true
    /\ tiedOptionIds (hooks c) = ["p1"; "s1"]
    /\ finalOptionText (hooks c) = Some ""
    /\ offers_tiebreaker (render c) = true.
Proof.
  eexists. eexists. split; [vm_compute; reflexivity |].
  repeat split.
Qed.

(** ** Loading a room *)

Lemma find_option_spec (id : string) (opts : list Option) (o : Option) :
  find_option id opts = Some o -> In o opts /\ opt_id o = id.
Proof.
  unfold find_option. intros H. apply find_some in H as [Hin Heq].
  split; [exact Hin | now apply String.eqb_eq].
Qed.

(** [find] returns the first option with the id that is looked up. *)
Lemma find_option_first (id : string) (pre : list Option) (o : Option)
    (post : list Option) :
  opt_id o = id ->
  (forall x, In x pre -> opt_id x <> id) ->
  find_option id (pre ++ o :: post) = Some o.
Proof.
  intros Hid Hpre. unfold find_option.
  induction pre as [| x pre IH]; simpl.
  - apply String.eqb_eq in Hid. now rewrite Hid.
  - destruct (opt_id x =? id) eqn:Hx.
    + apply String.eqb_eq in Hx. now contradiction (Hpre x (or_introl eq_refl)).
    + apply IH. intros y Hy. apply Hpre. now right.
Qed.

(** [find] returns [undefined] when no option has that id. *)
Lemma find_option_none (id : string) (opts : list Option) :
  (forall o, In o opts -> opt_id o <> id) -> find_option id opts = None.
Proof.
  intros Hnone. unfold find_option.
  induction opts as [| x rest IH]; simpl; [reflexivity |].
  destruct (opt_id x =? id) eqn:Hx.
  - apply String.eqb_eq in Hx. now contradiction (Hnone x (or_introl eq_refl)).
  - apply IH. intros y Hy. apply Hnone. now right.
Qed.

(** C5, as the code has it: a successful load replaces room, options and
    has-voted flag in one commit (the view is rendered with the cells as
    they were while the request is pending, and next with all of them
    replaced), and [finalOptionText] is recomputed from the response
    alone, the cells held before playing no part: it is null when the
    room has no final decision (or one with an empty option id), the text
    of the first option of the fetched list with the id the final
    decision names when there is one, and the empty string when the
    fetched list has no option with that id. *)
Theorem C5_load_replaces_state (code : string) (d : LoadData) (c : Component) :
  let res := (loadRoom code (Ok d) ;; commit) c in
  let h' := hooks (state_after res) in
  requests (log_of res) = [load_request code]
  /\ commits (log_of res) = [hooks c; h']
  /\ option_map snd (room h') = Some (ld_room d)
  /\ options h' = ld_options d
  /\ hasVoted h' = ld_hasVoted d
  /\ (finalDecision (ld_room d) = None -> finalOptionText h' = None)
  /\ (forall fd,
        finalDecision (ld_room d) = Some fd ->
        optionId fd = "" ->
        finalOptionText h' = None)
  /\ (forall fd pre o post,
        finalDecision (ld_room d) = Some fd ->
        optionId fd <> "" ->
        ld_options d = (pre ++ o :: post)%list ->
        opt_id o = optionId fd ->
        (forall x, In x pre -> opt_id x <> optionId fd) ->
        finalOptionText h' = Some (text o))
  /\ (forall fd,
        finalDecision (ld_room d) = Some fd ->
        optionId fd <> "" ->
        (forall o, In o (ld_options d) -> opt_id o <> optionId fd) ->
        finalOptionText h' = Some "")
  /\ (forall c2,
        finalOptionText (hooks (state_after ((loadRoom code (Ok d) ;; commit) c2)))
        = finalOptionText h').
Proof.
  intros res h'. subst h' res.
  unfold loadRoom, new_object, load_request. run_handler.
  do 5 (split; [reflexivity |]).
  split; [| split; [| split; [| split; [| intros c2; now rewrite hooks_run_effects]]]].
  - intros Hnone. unfold resolve_final. now rewrite Hnone.
  - intros fd Hfd Hempty. unfold resolve_final. now rewrite Hfd, Hempty.
  - intros fd pre o post Hfd Hid Hlist Ho Hpre. unfold resolve_final.
    rewrite Hfd, Hlist, (find_option_first _ pre o post Ho Hpre).
    now destruct (optionId fd).
  - intros fd Hfd Hid Hnone. unfold resolve_final.
    rewrite Hfd, (find_option_none _ _ Hnone).
    now destruct (optionId fd).
Qed.

Lemma C5_load_replaces_state_witness :
  let c := state_after (mount Sample.open_reply
                          (initial "DINNER" Sample.bob Sample.org)) in
  let d := mkLoadData (Sample.dinner false (Some (mkFinalDecision "s1")))
                      [Sample.pizza; Sample.sushi] true in
  finalOptionText (hooks (state_after ((loadRoom "DINNER" (Ok d) ;; commit) c)))
  = Some "Sushi".
Proof.
  intros c d.
  destruct (C5_load_replaces_state "DINNER" d c)
    as (_ & _ & _ & _ & _ & _ & _ & Hfound & _).
  apply (Hfound (mkFinalDecision "s1") [Sample.pizza] Sample.sushi []).
  - reflexivity.
  - discriminate.
  - reflexivity.
  - reflexivity.
  - intros x [<- | []]. discriminate.
Defined.

(** C5 as stated fails: the room comes with a final decision whose
    option is not in the fetched list; [finalOptionText] is then the
    empty string, which is neither null nor the text of an option. *)
Lemma C5_unresolved_decision_shows_empty :
  let c := state_after (mount Sample.open_reply
                          (initial "DINNER" Sample.bob Sample.org)) in
  let d := mkLoadData (Sample.dinner false (Some (mkFinalDecision "gone")))
                      [Sample.pizza; Sample.sushi] false in
  let h' := hooks (state_after ((loadRoom "DINNER" (Ok d) ;; commit) c)) in
  finalDecision (ld_room d) = Some (mkFinalDecision "gone")
  /\ finalOptionText h' = Some ""
  /\ finalOptionText h' <> None
  /\ (forall o, In o (ld_options d) -> finalOptionText h' <> Some (text o)).
Proof.
  intros c d h'.
  assert (Hempty : finalOptionText h' = Some "") by reflexivity.
  split; [reflexivity | split; [exact Hempty | split]].
  - rewrite Hempty. discriminate.
  - rewrite Hempty. intros o [<- | [<- | []]]; discriminate.
Qed.

(** ** From a tie to the tiebreaker *)









(** ** Reporting failures *)

(** C7, as the code has it: every operation that sends a request which
    the server rejects raises exactly one error toast.  For the POST
    operations it is the server's message when there is a non-empty one,
    and otherwise the operation's own generic message; the two GET
    operations ([loadRoom] and the past-decisions fetch) always raise
    their generic message. *)
Theorem C7_failure_messages (toUpperCase : string -> string) (op : Operation)
    (err : ApiError) (r2 : Reply LoadData) (s : op_state op) :
  sends_request op s = true ->
  length (requests (run_failing toUpperCase op err r2 s)) = 1
  /\ toasts (run_failing toUpperCase op err r2 s)
     = [(error,
         if relays_server_message op
         then Js.or_else (server_message err) (fallback_message op)
         else fallback_message op)].
Proof.
  intros Hsends.
  destruct op; simpl in s, Hsends |- *.
  - now unfold Login.handleSubmit.
  - now unfold Signup.handleSubmit.
  - unfold Home.createRoom. rewrite bind_get, Hsends. now simpl.
  - unfold Home.joinRoom. rewrite bind_get, Hsends. now simpl.
  - unfold loadRoom. now run_handler.
  - apply andb_true_iff in Hsends as [Htext Hroom].
    unfold submitOption, with_room. rewrite bind_get, Htext.
    destruct (room (hooks s)) as [[ref rm]|]; [| discriminate].
    now run_handler.
  - unfold openVoting. rewrite bind_get.
    destruct (room (hooks s)) as [[ref rm]|]; [| discriminate].
    now run_handler.
  - apply andb_true_iff in Hsends as [Hsel Hroom].
    unfold vote, with_room. rewrite bind_get, Hsel.
    destruct (room (hooks s)) as [[ref rm]|]; [| discriminate].
    now run_handler.
  - unfold closeVoting. rewrite bind_get.
    destruct (room (hooks s)) as [[ref rm]|]; [| discriminate].
    now run_handler.
  - unfold triggerTiebreaker. rewrite bind_get.
    destruct (room (hooks s)) as [[ref rm]|]; [| discriminate].
    now run_handler.
  - now unfold PastDecisions.fetchPast.
Qed.

Lemma C7_failure_messages_witness :
  let c := state_after (mount Sample.open_reply
                          (initial "DINNER" Sample.ann Sample.org)) in
  toasts (run_failing Home.upper OpCloseVoting
            (mkApiError (Some "Only the creator can close voting"))
            Sample.unreachable c)
  = [(error, "Only the creator can close voting")].
Proof.
  intros c.
  apply (C7_failure_messages Home.upper OpCloseVoting
           (mkApiError (Some "Only the creator can close voting"))
           Sample.unreachable c eq_refl).
Defined.

(** C7 as stated fails: the server rejects the room fetch with a message
    of its own and the view reports its generic message instead. *)
Lemma C7_load_hides_server_message :
  let log := log_of (mount (Sample.refused "This room has expired")
                       (initial "DINNER" Sample.bob Sample.org)) in
  requests log = [load_request "DINNER"]
  /\ toasts log = [(error, "Failed to load room data")]
  /\ ~ In (error, "This room has expired") (toasts log).
Proof.
  intros log. split; [reflexivity | split; [reflexivity |]].
  simpl. intros [H | []]. discriminate H.
Qed.

(** ** Casting a vote *)



(** ** Submitting an option *)

(** C9: when the option text is empty after trimming, [submitOption]
    sends nothing and raises the validation toast; otherwise it posts the
    trimmed text to the options of the held room and, once the server has
    accepted it, empties the text field and reloads the room: the cells
    become those of the reply to the reload (they stay as they were when
    the reload fails).  When the server rejects the option nothing is
    reloaded and the cells stay as they were. *)
Theorem C9_submitOption (c : Component) (r1 : Reply unit) (r2 : Reply LoadData) :
  let res := submitOption r1 r2 c in
  let h' := hooks (state_after res) in
  (Js.trim (optionText (hooks c)) = "" ->
     requests (log_of res) = []
     /\ toasts (log_of res) = [(error, "Enter option text")]
     /\ state_after res = c)
  /\ (forall ref rm,
        Js.trim (optionText (hooks c)) <> "" ->
        room (hooks c) = Some (ref, rm) ->
        requests (log_of res)
        = POST ("/rooms/" ++ room_id rm ++ "/options")
            (OptionBody (Js.trim (optionText (hooks c))))
          :: match r1 with
             | Ok _ => [load_request (roomCode c)]
             | Failed _ => []
             end)
  /\ (forall ref rm,
        Js.trim (optionText (hooks c)) <> "" ->
        room (hooks c) = Some (ref, rm) ->
        match r1 with
        | Ok _ =>
            optionText h' = ""
            /\ match r2 with
               | Ok d =>
                   option_map snd (room h') = Some (ld_room d)
                   /\ options h' = ld_options d
                   /\ hasVoted h' = ld_hasVoted d
                   /\ synchronized h' d
                   /\ toasts (log_of res) = [(success, "Option added!")]
               | Failed _ =>
                   room h' = room (hooks c)
                   /\ options h' = options (hooks c)
                   /\ hasVoted h' = hasVoted (hooks c)
                   /\ toasts (log_of res)
                      = [(success, "Option added!");
                         (error, "Failed to load room data")]
               end
        | Failed err =>
            h' = hooks c
            /\ toasts (log_of res)
               = [(error, Js.or_else (server_message err) "Failed to add option")]
        end).
Proof.
  intros res h'. subst h' res. split; [| split].
  - intros Hempty. unfold submitOption. rewrite bind_get, Hempty.
    now run_handler.
  - intros ref rm Htext Hroom. unfold submitOption, with_room.
    rewrite bind_get, Hroom.
    destruct (Js.trim (optionText (hooks c))) as [| ch rest] eqn:Htrim;
      [now contradiction Htext |].
    destruct r1 as [[] | err].
    + destruct r2; unfold loadRoom, new_object, load_request; now run_handler.
    + now run_handler.
  - intros ref rm Htext Hroom. unfold submitOption, with_room.
    rewrite bind_get, Hroom.
    destruct (Js.trim (optionText (hooks c))) as [| ch rest] eqn:Htrim;
      [now contradiction Htext |].
    destruct r1 as [[] | err].
    + destruct r2; unfold loadRoom, new_object, synchronized; run_handler;
        repeat split; auto.
    + run_handler. split; reflexivity.
Qed.

Lemma C9_submitOption_witness :
  let c := with_hooks (setOptionText " Tacos ")
             (state_after (mount Sample.collecting_reply
                             (initial "DINNER" Sample.bob Sample.org))) in
  let d := mkLoadData (Sample.dinner false None)
             [Sample.pizza; Sample.sushi; mkOption "t1" "Tacos"] false in
  let res := submitOption (Ok tt) (Ok d) c in
  requests (log_of res)
  = [POST "/rooms/r1/options" (OptionBody "Tacos"); load_request "DINNER"]
  /\ optionText (hooks (state_after res)) = ""
  /\ options (hooks (state_after res))
     = [Sample.pizza; Sample.sushi; mkOption "t1" "Tacos"].
Proof.
  intros c d res.
  destruct (C9_submitOption c (Ok tt) (Ok d)) as (_ & Hsent & Hdone).
  assert (Htext : Js.trim (optionText (hooks c)) <> "") by discriminate.
  split; [exact (Hsent 0 (Sample.dinner false None) Htext eq_refl) |].
  destruct (Hdone 0 (Sample.dinner false None) Htext eq_refl)
    as (Hfield & _ & Hoptions & _).
  split; [exact Hfield | exact Hoptions].
Defined.

(** ** Joining a room *)

(** C10: [joinRoom] trims the entered code; when nothing is left it
    sends nothing and raises an error toast; otherwise the code goes to
    the join endpoint in upper case, and when the server accepts it the
    view navigates to the room of that upper-case code. *)
Theorem C10_joinRoom (toUpperCase : string -> string) (s : Home.State)
    (reply : Reply unit) :
  let res := Home.joinRoom toUpperCase reply s in
  let code := Js.trim (Home.roomCodeInput s) in
  (code = "" ->
     requests (log_of res) = []
     /\ navigations (log_of res) = []
     /\ toasts (log_of res) = [(error, "Enter room code")])
  /\ (code <> "" ->
      requests (log_of res) = [POST "/rooms/join" (JoinBody (toUpperCase code))]
      /\ navigations (log_of res)
         = match reply with
           | Ok _ => ["/room/" ++ toUpperCase code]
           | Failed _ => []
           end).
Proof.
  intros res code. subst res code. unfold Home.joinRoom. rewrite bind_get.
  split.
  - intros ->. now simpl.
  - intros Hcode.
    destruct (Js.trim (Home.roomCodeInput s)) as [| ch rest];
      [now contradiction Hcode |].
    destruct reply as [[] | err]; now simpl.
Qed.

Lemma C10_joinRoom_witness :
  let s := Home.mkState "  dinner " false "" "" "" in
  let res := Home.joinRoom Home.upper (Ok tt) s in
  requests (log_of res) = [POST "/rooms/join" (JoinBody "DINNER")]
  /\ navigations (log_of res) = ["/room/DINNER"].
Proof.
  intros s res.
  destruct (C10_joinRoom Home.upper s (Ok tt)) as [_ Hjoin].
  apply Hjoin. discriminate.
Defined.

(** * Further properties of the views *)

(** ** What the room page shows *)

Lemma render_row_single (h : Hooks) (rm : Room) (o : Option) :
  exists r, render_row h rm o = [r]
    /\ is_plain r = negb (votingOpen rm)
    /\ is_radio r = votingOpen rm && negb (hasVoted h)
    /\ is_voted r = votingOpen rm && hasVoted h.
Proof.
  unfold render_row.
  destruct (votingOpen rm), (hasVoted h); simpl; eexists; repeat split.
Qed.

Lemma rows_by_option (h : Hooks) (rm : Room) (opts : list Option) :
  flat_map (render_row h rm) opts
  = map (fun o =>
           if votingOpen rm then
             if hasVoted h
             then VotedRow (text o) (eqb_selected (selectedOptionId h) (opt_id o))
             else RadioRow (opt_id o) (text o) (voteCasting h)
           else PlainRow (text o))
        opts.
Proof.
  induction opts as [| o rest IH]; simpl; [reflexivity |].
  rewrite <- IH. unfold render_row at 1.
  now destruct (votingOpen rm), (hasVoted h).
Qed.

(** Every option of the list gets exactly one row, in the order of the
    list: the n-th row shows the text of the n-th option, as plain text
    while voting is closed, as a radio carrying the option's id (disabled
    while a vote is being cast) while it is open and the participant has
    not voted, and in the voted form, marked when its id is the selected
    one, after that.  So all rows are of one kind. *)
Theorem rows_one_per_option (c : Component) (p : Page) :
  render c = RoomPage p ->
  exists ref rm,
    room (hooks c) = Some (ref, rm)
    /\ rows p
       = map (fun o =>
                if votingOpen rm then
                  if hasVoted (hooks c)
                  then VotedRow (text o)
                         (eqb_selected (selectedOptionId (hooks c)) (opt_id o))
                  else RadioRow (opt_id o) (text o) (voteCasting (hooks c))
                else PlainRow (text o))
             (options (hooks c))
    /\ length (rows p) = length (options (hooks c))
    /\ forallb is_plain (rows p)
       = negb (votingOpen rm) || (length (options (hooks c)) =? 0)%nat
    /\ forallb is_radio (rows p)
       = votingOpen rm && negb (hasVoted (hooks c))
         || (length (options (hooks c)) =? 0)%nat
    /\ forallb is_voted (rows p)
       = votingOpen rm && hasVoted (hooks c)
         || (length (options (hooks c)) =? 0)%nat.
Proof.
  unfold render. destruct (loading (hooks c)); [discriminate |].
  destruct (room (hooks c)) as [[ref rm]|]; [| discriminate].
  intros [= <-]. exists ref, rm. split; [reflexivity |]. simpl.
  split; [apply rows_by_option |].
  induction (options (hooks c)) as [| o rest (Hlen & Hplain & Hradio & Hvoted)]; simpl.
  - now rewrite !orb_true_r.
  - destruct (render_row_single (hooks c) rm o) as (r & -> & Hp & Hr & Hv).
    simpl. rewrite Hlen, Hplain, Hradio, Hvoted, Hp, Hr, Hv.
    rewrite !orb_false_r.
    repeat split;
      destruct (votingOpen rm), (hasVoted (hooks c)), (length rest =? 0)%nat;
      reflexivity.
Qed.

Lemma rows_one_per_option_witness :
  let c := state_after (mount Sample.open_reply
                          (initial "DINNER" Sample.bob Sample.org)) in
  exists p, render c = RoomPage p
            /\ rows p = [RadioRow "p1" "Pizza" false; RadioRow "s1" "Sushi" false]
            /\ forallb is_radio (rows p) = true.
Proof.
  intros c. eexists. split; [reflexivity |].
  destruct (rows_one_per_option c _ eq_refl)
    as (ref & rm & Hroom & Hrows & _ & _ & Hradio & _).
  injection Hroom as <- <-.
  split; [exact Hrows | exact Hradio].
Defined.

(** The view never offers submitting and voting together, nor Open
    Voting and Close Voting together, nor Open Voting together with the
    vote, and it never shows the final decision and the tiebreaker prompt
    together. *)
Theorem controls_exclusive (c : Component) :
  offers_submitOption (render c) && offers_vote (render c) = false
  /\ offers_openVoting (render c) && offers_closeVoting (render c) = false
  /\ offers_openVoting (render c) && offers_vote (render c) = false
  /\ (forall p, render c = RoomPage p ->
        is_some (final_banner p) && is_some (tie_prompt p) = false).
Proof.
  unfold render. destruct (loading (hooks c)).
  { repeat split; discriminate. }
  destruct (room (hooks c)) as [[ref rm]|].
  2:{ repeat split; discriminate. }
  simpl.
  split; [| split; [| split]].
  - destruct (votingOpen rm), (hasVoted (hooks c)); reflexivity.
  - destruct (isCreator c), (votingOpen rm), (0 <? length (options (hooks c)))%nat;
      reflexivity.
  - destruct (isCreator c), (votingOpen rm), (hasVoted (hooks c)),
      (0 <? length (options (hooks c)))%nat; reflexivity.
  - intros p [= <-]. simpl.
    destruct (Js.truthy_opt (finalOptionText (hooks c))) eqn:Hfinal.
    + simpl. rewrite andb_false_r. now destruct (finalOptionText (hooks c)).
    + reflexivity.
Qed.

(** ** What stays true of the room view *)

Lemma state_after_commit (c : Component) : state_after (commit c) = run_effects c.
Proof. reflexivity. Qed.

Lemma loadRoom_ends_loading (code : string) (reply : Reply LoadData) (c : Component) :
  loading (hooks (state_after (loadRoom code reply c))) = false.
Proof. destruct reply; unfold loadRoom, new_object; now run_handler. Qed.

Lemma unmount_hooks (c : Component) : hooks (state_after (unmount c)) = hooks c.
Proof. unfold unmount. run_handler. apply stop_poll_rest. Qed.

Lemma loading_stays_down (c : Component) : reachable c -> loading (hooks c) = false.
Proof.
  induction 1 as [code email org first | c a c' l Hreach IH Hstep].
  - unfold mount. rewrite !state_after_bind, state_after_commit, hooks_run_effects.
    apply loadRoom_ends_loading.
  - destruct (is_unmount a) eqn:Hun.
    + unfold step in Hstep. destruct a; try discriminate Hun. simpl in Hstep.
      destruct (mounted c); [| discriminate]. injection Hstep as <- _.
      now rewrite unmount_hooks.
    + refine (step_keeps (fun c => loading (hooks c) = false) any_reply
                _ _ _ _ c a c' l _ Hstep Hun (good_any a) IH).
      * intros f c0 _ Hf _ H. simpl. now rewrite Hf.
      * intros c0 H. now rewrite hooks_run_effects.
      * auto.
      * intros code reply _ c0 _. apply loadRoom_ends_loading.
      * auto.
Qed.

(** Once the first load has returned, whether with a room or with an
    error, the loading screen never comes back: reloads, polls and a
    change of room code leave the page on display while they run. *)
Theorem reachable_never_loading (c : Component) :
  reachable c -> loading (hooks c) = false /\ render c <> LoadingScreen.
Proof.
  intros Hreach.
  pose proof (loading_stays_down c Hreach) as Hl.
  split; [exact Hl |]. unfold render. rewrite Hl.
  destruct (room (hooks c)) as [[ref rm]|]; discriminate.
Qed.

Lemma reachable_never_loading_witness :
  let c := state_after (mount Sample.unreachable
                          (initial "DINNER" Sample.bob Sample.org)) in
  loading (hooks c) = false /\ render c <> LoadingScreen.
Proof.
  intros c. apply (reachable_never_loading c). constructor.
Defined.

Lemma idle_loadRoom (code : string) (reply : Reply LoadData) (c : Component) :
  idle (hooks c) -> idle (hooks (state_after (loadRoom code reply c))).
Proof.
  intros H. destruct reply; unfold loadRoom, new_object; run_handler; exact H.
Qed.

Ltac idle_cells :=
  match goal with
  | H : idle _ |- _ =>
      destruct H as (? & ? & ? & ?); unfold idle; simpl; repeat split; assumption
  end.

Lemma idle_submitOption r1 r2 (c : Component) :
  idle (hooks c) -> idle (hooks (state_after (submitOption r1 r2 c))).
Proof.
  intros H. unfold submitOption, with_room. rewrite bind_get.
  destruct (negb (Js.truthy (Js.trim (optionText (hooks c)))));
    [exact H |].
  destruct (room (hooks c)) as [[ref rm]|]; [| run_handler; exact H].
  destruct r1 as [[] | err]; [| run_handler; exact H].
  destruct r2; unfold loadRoom, new_object; run_handler; idle_cells.
Qed.

Lemma idle_openVoting r1 r2 (c : Component) :
  idle (hooks c) -> idle (hooks (state_after (openVoting r1 r2 c))).
Proof.
  intros H. unfold openVoting. rewrite bind_get.
  destruct (room (hooks c)) as [[ref rm]|]; [| exact H].
  destruct r1 as [[] | err]; [| run_handler; exact H].
  destruct r2; unfold loadRoom, new_object; run_handler; idle_cells.
Qed.

Lemma idle_vote r1 r2 (c : Component) :
  idle (hooks c) -> idle (hooks (state_after (vote r1 r2 c))).
Proof.
  intros H. unfold vote, with_room. rewrite bind_get.
  destruct (negb (Js.truthy_opt (selectedOptionId (hooks c)))); [exact H |].
  destruct (room (hooks c)) as [[ref rm]|]; [| run_handler; idle_cells].
  destruct r1 as [[] | err]; [| run_handler; idle_cells].
  destruct r2; unfold loadRoom, new_object; run_handler; idle_cells.
Qed.

Lemma idle_closeVoting r1 r2 (c : Component) :
  idle (hooks c) -> idle (hooks (state_after (closeVoting r1 r2 c))).
Proof.
  intros H. unfold closeVoting. rewrite bind_get.
  destruct (room (hooks c)) as [[ref rm]|]; [| exact H].
  destruct r1 as [[[|] ids] | err]; [| | run_handler; idle_cells].
  - run_handler; idle_cells.
  - destruct r2; unfold loadRoom, new_object; run_handler; idle_cells.
Qed.

Lemma idle_triggerTiebreaker m r1 r2 (c : Component) :
  idle (hooks c) -> idle (hooks (state_after (triggerTiebreaker m r1 r2 c))).
Proof.
  intros H. unfold triggerTiebreaker. rewrite bind_get.
  destruct (room (hooks c)) as [[ref rm]|]; [| exact H].
  destruct r1 as [[win] | err]; [| run_handler; idle_cells].
  destruct r2; unfold loadRoom, new_object; run_handler; idle_cells.
Qed.

Lemma idle_changeRoomCode code reply (c : Component) :
  idle (hooks c) -> idle (hooks (state_after (changeRoomCode code reply c))).
Proof.
  intros H. unfold changeRoomCode. rewrite bind_get.
  destruct (roomCode c =? code); [exact H |].
  rewrite !state_after_bind, state_after_commit, hooks_run_effects.
  apply idle_loadRoom. rewrite state_after_commit, hooks_run_effects. exact H.
Qed.

Lemma idle_handler (c : Component) (a : Action) (m : M Component unit) :
  handler_of c a = Some m -> idle (hooks c) -> idle (hooks (state_after (m c))).
Proof.
  intros Hm H. destruct a; simpl in Hm;
    repeat match type of Hm with
           | (match ?x with _ => _ end) = Some _ => destruct x; try discriminate Hm
           end;
    injection Hm as <-.
  - run_handler. idle_cells.
  - run_handler. idle_cells.
  - now apply idle_submitOption.
  - now apply idle_openVoting.
  - now apply idle_vote.
  - now apply idle_closeVoting.
  - now apply idle_triggerTiebreaker.
  - now apply idle_loadRoom.
  - now apply idle_changeRoomCode.
  - now rewrite unmount_hooks.
Qed.

Lemma idle_step (c : Component) (a : Action) (c' : Component) (l : list Event) :
  step c a = Some (c', l) -> idle (hooks c) -> idle (hooks c').
Proof.
  intros Hstep H. unfold step in Hstep.
  destruct (handler_of c a) as [m|] eqn:Hm; [| discriminate].
  injection Hstep as <- _.
  destruct (is_unmount a).
  - apply (idle_handler c a m Hm H).
  - rewrite state_after_bind, state_after_commit, hooks_run_effects.
    apply (idle_handler c a m Hm H).
Qed.

Lemma idle_at_rest (c : Component) : reachable c -> idle (hooks c).
Proof.
  induction 1 as [code email org first | c a c' l Hreach IH Hstep].
  - unfold mount. rewrite !state_after_bind, state_after_commit, hooks_run_effects.
    apply idle_loadRoom. unfold idle. repeat split.
  - apply (idle_step c a c' l Hstep IH).
Qed.

(** [vote], [closeVoting] and [triggerTiebreaker] bracket their request
    with their busy flag.  From a state in which the view rests between
    two handler runs, the first thing committed is the page with the flag
    up and nothing else changed, so that while the request is pending the
    button that started it is rendered disabled; the last thing committed
    has all busy flags down again, whether the server accepted the
    request or rejected it.  Hence at rest the Close Voting button and
    the tiebreaker buttons are enabled whenever they are rendered, and
    the Vote button is disabled only for want of a selection. *)
Theorem busy_flags_bracket (c : Component) (ref : nat) (rm : Room) :
  reachable c -> room (hooks c) = Some (ref, rm) ->
  idle (hooks c)
  /\ (forall r1 r2,
        Js.truthy_opt (selectedOptionId (hooks c)) = true ->
        let res := (vote r1 r2 ;; commit) c in
        exists pending later,
          commits (log_of res) = pending :: later
          /\ pending = setVoteCasting true (hooks c)
          /\ last later pending = hooks (state_after res)
          /\ idle (hooks (state_after res)))
  /\ (forall r1 r2,
        let res := (closeVoting r1 r2 ;; commit) c in
        exists pending later,
          commits (log_of res) = pending :: later
          /\ pending = setVotingClosing true (hooks c)
          /\ last later pending = hooks (state_after res)
          /\ idle (hooks (state_after res)))
  /\ (forall m r1 r2,
        let res := (triggerTiebreaker m r1 r2 ;; commit) c in
        exists pending later,
          commits (log_of res) = pending :: later
          /\ pending = setTiebreakerMethod (method_name m)
                         (setTiebreaking true (hooks c))
          /\ last later pending = hooks (state_after res)
          /\ idle (hooks (state_after res)))
  /\ (forall p, render c = RoomPage p ->
        (offers_vote (render c) = true ->
           enabled (vote_button p) = Js.truthy_opt (selectedOptionId (hooks c))
           /\ exists q, render (with_hooks (setVoteCasting true) c) = RoomPage q
                        /\ vote_button q = Some true)
        /\ (offers_closeVoting (render c) = true ->
             enabled (close_voting_button p) = true
             /\ exists q, render (with_hooks (setVotingClosing true) c) = RoomPage q
                          /\ close_voting_button q = Some true)
        /\ (offers_tiebreaker (render c) = true ->
             enabled (tie_prompt p) = true
             /\ forall m,
                  exists q,
                    render (with_hooks
                              (fun h => setTiebreakerMethod (method_name m)
                                          (setTiebreaking true h)) c) = RoomPage q
                    /\ tie_prompt q = Some true)).
Proof.
  intros Hreach Hroom.
  pose proof (idle_at_rest c Hreach) as Hidle.
  split; [exact Hidle |].
  split; [| split; [| split]].
  - intros r1 r2 Hsel res. subst res.
    rewrite log_of_bind, state_after_bind.
    unfold vote, with_room. rewrite bind_get, Hsel, Hroom.
    destruct r1 as [[] | err]; [destruct r2 |]; unfold loadRoom, new_object;
      run_handler; do 2 eexists; (split; [reflexivity |]);
      (split; [reflexivity |]); (split; [reflexivity |]); idle_cells.
  - intros r1 r2 res. subst res.
    rewrite log_of_bind, state_after_bind.
    unfold closeVoting. rewrite bind_get, Hroom.
    destruct r1 as [[[|] ids] | err]; [| destruct r2 |];
      unfold loadRoom, new_object;
      run_handler; do 2 eexists; (split; [reflexivity |]);
      (split; [reflexivity |]); (split; [reflexivity |]); idle_cells.
  - intros m r1 r2 res. subst res.
    rewrite log_of_bind, state_after_bind.
    unfold triggerTiebreaker. rewrite bind_get, Hroom.
    destruct r1 as [[win] | err]; [destruct r2 |]; unfold loadRoom, new_object;
      run_handler; do 2 eexists; (split; [reflexivity |]);
      (split; [reflexivity |]); (split; [reflexivity |]); idle_cells.
  - intros p Hp. rewrite Hp.
    assert (Hl : loading (hooks c) = false).
    { unfold render in Hp. destruct (loading (hooks c)); [discriminate | reflexivity]. }
    destruct Hidle as (Hcast & Hclosing & Htb & _).
    unfold render in *.
    cbn [hooks with_hooks loading room setVoteCasting setVotingClosing
         setTiebreaking setTiebreakerMethod].
    rewrite Hl, Hroom in *.
    injection Hp as <-. unfold render_page, isCreator. simpl.
    rewrite Hroom, Hcast, Hclosing, Htb. simpl.
    repeat split.
    + destruct (votingOpen rm && negb (hasVoted (hooks c))); [| discriminate].
      simpl. now rewrite negb_involutive.
    + destruct (votingOpen rm && negb (hasVoted (hooks c))); [| discriminate].
      eexists. split; reflexivity.
    + now destruct (match auth_email c with
                    | Some email => creatorId rm =? email
                    | None => false
                    end && votingOpen rm).
    + destruct (match auth_email c with
                | Some email => creatorId rm =? email
                | None => false
                end && votingOpen rm); [| discriminate].
      eexists. split; reflexivity.
    + now destruct (match auth_email c with
                    | Some email => creatorId rm =? email
                    | None => false
                    end && (0 <? length (tiedOptionIds (hooks c)))%nat
                    && negb (Js.truthy_opt (finalOptionText (hooks c)))).
    + intros m.
      destruct (match auth_email c with
                | Some email => creatorId rm =? email
                | None => false
                end && (0 <? length (tiedOptionIds (hooks c)))%nat
                && negb (Js.truthy_opt (finalOptionText (hooks c))));
        [| discriminate].
      eexists. split; reflexivity.
Qed.

Lemma busy_flags_bracket_witness :
  let c := state_after (mount Sample.open_reply
                          (initial "DINNER" Sample.ann Sample.org)) in
  let res := (closeVoting (Sample.refused "No votes yet") Sample.unreachable ;; commit) c in
  exists pending later,
    commits (log_of res) = pending :: later
    /\ votingClosing pending = true
    /\ votingClosing (hooks (state_after res)) = false.
Proof.
  intros c res.
  destruct (busy_flags_bracket c 0 (Sample.dinner true None) (reach_mount _ _ _ _) eq_refl)
    as (_ & _ & Hclose & _).
  destruct (Hclose (Sample.refused "No votes yet") Sample.unreachable)
    as (pending & later & Hlog & Hpending & _ & (_ & Hdown & _)).
  exists pending, later. split; [exact Hlog |].
  split; [now rewrite Hpending | exact Hdown].
Defined.

(** ** Failures leave the view as it was *)

Lemma with_hooks_same (f : Hooks -> Hooks) (c : Component) :
  f (hooks c) = hooks c -> with_hooks f c = c.
Proof. intros Hf. unfold with_hooks. rewrite Hf. now destruct c. Qed.

(** With the room and the room code of the last run, the poll effect
    does not run again. *)
Lemma run_effects_same_room (f : Hooks -> Hooks) (c : Component) :
  settled c -> mounted c = true ->
  room (f (hooks c)) = room (hooks c) ->
  run_effects (with_hooks f c) = with_hooks f c.
Proof.
  intros [_ Hdeps] Hm Hroom. unfold run_effects, mounted in *. simpl.
  destruct (poll_effect c) as [p|]; [| discriminate].
  destruct Hdeps as [Hr Hc].
  unfold room_identity. simpl. rewrite Hroom.
  fold (room_identity c). rewrite Hr, Hc, String.eqb_refl.
  now rewrite (proj2 (eqb_identity_eq _ _) eq_refl).
Qed.

Lemma run_effects_settled (c : Component) :
  settled c -> mounted c = true -> run_effects c = c.
Proof.
  intros Hs Hm.
  pose proof (run_effects_same_room (fun h => h) c Hs Hm eq_refl) as H.
  now rewrite (with_hooks_same (fun h => h) c eq_refl) in H.
Qed.

Lemma with_hooks_compose (f g : Hooks -> Hooks) (c : Component) :
  with_hooks g (with_hooks f c) = with_hooks (fun h => g (f h)) c.
Proof. reflexivity. Qed.

(** Push the commits of a handler through a settled component whose
    room the handler has not replaced. *)
Ltac settle Hs Hm :=
  repeat first
    [ rewrite with_hooks_compose
    | rewrite (run_effects_same_room _ _ Hs Hm) by reflexivity
    | rewrite (run_effects_settled _ Hs Hm) ].

Ltac same_cells_by Hidle Hload :=
  apply with_hooks_same;
  destruct Hidle as (? & ? & ? & ?);
  destruct (hooks _); simpl in *; subst; reflexivity.

Lemma rejected_load_keeps (c : Component) (code : string) (err : ApiError) :
  reachable c -> mounted c = true ->
  state_after ((loadRoom code (Failed err) ;; commit) c) = c.
Proof.
  intros Hreach Hm.
  pose proof (reachable_settled c Hreach) as Hs.
  pose proof (idle_at_rest c Hreach) as Hidle.
  pose proof (loading_stays_down c Hreach) as Hload.
  rewrite state_after_bind, state_after_commit.
  unfold loadRoom. run_handler. settle Hs Hm.
  same_cells_by Hidle Hload.
Qed.

(** A request the server rejects, a load that fails and an input the
    handler refuses all leave a mounted view exactly as it was: same
    cells, same timer; only the toast tells. *)
Theorem failure_changes_nothing (c : Component) (err : ApiError) (r2 : Reply LoadData) :
  reachable c -> mounted c = true ->
  state_after ((submitOption (Failed err) r2 ;; commit) c) = c
  /\ state_after ((openVoting (Failed err) r2 ;; commit) c) = c
  /\ state_after ((vote (Failed err) r2 ;; commit) c) = c
  /\ state_after ((closeVoting (Failed err) r2 ;; commit) c) = c
  /\ (forall m, state_after ((triggerTiebreaker m (Failed err) r2 ;; commit) c) = c)
  /\ (forall code, state_after ((loadRoom code (Failed err) ;; commit) c) = c).
Proof.
  intros Hreach Hm.
  pose proof (reachable_settled c Hreach) as Hs.
  pose proof (idle_at_rest c Hreach) as Hidle.
  pose proof (loading_stays_down c Hreach) as Hload.
  split; [| split; [| split; [| split; [| split]]]];
    try intros m; rewrite state_after_bind, state_after_commit.
  - unfold submitOption, with_room. rewrite bind_get.
    destruct (negb (Js.truthy (Js.trim (optionText (hooks c)))));
      [run_handler; now settle Hs Hm |].
    destruct (room (hooks c)) as [[ref rm]|]; run_handler; now settle Hs Hm.
  - unfold openVoting. rewrite bind_get.
    destruct (room (hooks c)) as [[ref rm]|]; run_handler; now settle Hs Hm.
  - unfold vote, with_room. rewrite bind_get.
    destruct (negb (Js.truthy_opt (selectedOptionId (hooks c))));
      [run_handler; now settle Hs Hm |].
    destruct (room (hooks c)) as [[ref rm]|]; run_handler; settle Hs Hm;
      same_cells_by Hidle Hload.
  - unfold closeVoting. rewrite bind_get.
    destruct (room (hooks c)) as [[ref rm]|]; run_handler; settle Hs Hm;
      [same_cells_by Hidle Hload | reflexivity].
  - unfold triggerTiebreaker. rewrite bind_get.
    destruct (room (hooks c)) as [[ref rm]|]; run_handler; settle Hs Hm;
      [same_cells_by Hidle Hload | reflexivity].
  - unfold loadRoom. run_handler. settle Hs Hm.
    same_cells_by Hidle Hload.
Qed.

Lemma failure_changes_nothing_witness :
  let c := state_after (mount Sample.open_reply
                          (initial "DINNER" Sample.ann Sample.org)) in
  state_after ((closeVoting (Sample.refused "No votes yet") Sample.unreachable ;; commit) c)
  = c.
Proof.
  intros c.
  destruct (failure_changes_nothing c (mkApiError (Some "No votes yet"))
              Sample.unreachable (reach_mount _ _ _ _) eq_refl)
    as (_ & _ & _ & Hclose & _).
  exact Hclose.
Defined.

(** ** Loading: the first load, a second load, the poll *)

(** When the first load fails the view shows "Room not found" for good:
    no timer is set, and nothing but a change of room code or teardown
    can be done to it; there is no retry. *)
Theorem failed_first_load_is_terminal (code : string) (email : option string)
    (org : string) (err : ApiError) :
  let res := mount (Failed err) (initial code email org) in
  let c := state_after res in
  render c = NotFoundScreen
  /\ timers c = []
  /\ requests (log_of res) = [load_request code]
  /\ toasts (log_of res) = [(error, "Failed to load room data")]
  /\ (forall a, is_lifecycle a = false -> step c a = None).
Proof.
  intros res c.
  assert (Hrender : render c = NotFoundScreen).
  { subst c res. unfold render, mount, loadRoom. now run_handler. }
  assert (Htimers : timers c = []).
  { rewrite (settled_timers c (reachable_settled c (reach_mount _ _ _ _))).
    replace (polling c) with false; [now rewrite andb_false_r |].
    subst c res. unfold polling, mount, loadRoom. now run_handler. }
  split; [exact Hrender |]. split; [exact Htimers |].
  split; [subst res; unfold mount, loadRoom; now run_handler |].
  split; [subst res; unfold mount, loadRoom; now run_handler |].
  intros a Ha. unfold step, handler_of. rewrite Hrender, Htimers.
  destruct a; try discriminate Ha; simpl; now rewrite ?andb_false_r.
Qed.

Lemma mounted_run_effects (c : Component) : mounted (run_effects c) = true.
Proof.
  unfold run_effects.
  destruct (poll_effect c) as [p|] eqn:Hp.
  - destruct (eqb_identity (dep_room p) (room_identity c)
              && (dep_loadRoom p =? roomCode c)).
    + unfold mounted. now rewrite Hp.
    + unfold start_poll, mounted.
      now destruct (match room (hooks (stop_poll c)) with
                    | Some (_, rm) => votingOpen rm
                    | None => false
                    end).
  - unfold start_poll, mounted.
    now destruct (match room (hooks c) with
                  | Some (_, rm) => votingOpen rm
                  | None => false
                  end).
Qed.

Lemma settled_timer_count (c : Component) :
  settled c -> mounted c = true ->
  length (timers c) = if polling c then 1 else 0.
Proof.
  intros Hs Hm. destruct (polling c) eqn:Hp.
  - destruct (settled_polling c Hs Hm Hp) as [id ->]. reflexivity.
  - rewrite (settled_timers c Hs), Hp, andb_false_r. reflexivity.
Qed.

(** The cells a successful load leaves after its commit. *)
Lemma hooks_after_load (code : string) (d : LoadData) (c : Component) :
  hooks (state_after ((loadRoom code (Ok d) ;; commit) c))
  = setLoading false
      (setShareLink (origin c ++ "/room/" ++ code)
         (setFinalOptionText (resolve_final d)
            (setHasVoted (ld_hasVoted d)
               (setOptions (ld_options d)
                  (setRoom (Some (fresh (run_effects c), ld_room d)) (hooks c)))))).
Proof. unfold loadRoom, new_object. now run_handler. Qed.

Lemma rest_after_load (code : string) (d : LoadData) (c : Component) :
  auth_email (state_after ((loadRoom code (Ok d) ;; commit) c)) = auth_email c
  /\ origin (state_after ((loadRoom code (Ok d) ;; commit) c)) = origin c.
Proof. unfold loadRoom, new_object. now run_handler. Qed.

(** Loading twice with the same response gives what loading once gives:
    the same cells but for the identity of the room object, the same
    page, and as many timers. *)
Theorem load_idempotent (code : string) (d : LoadData) (c : Component) :
  reachable c ->
  let c1 := state_after ((loadRoom code (Ok d) ;; commit) c) in
  let c2 := state_after ((loadRoom code (Ok d) ;; commit) c1) in
  same_cells (hooks c1) (hooks c2)
  /\ render c2 = render c1
  /\ length (timers c2) = length (timers c1).
Proof.
  intros Hreach c1 c2.
  assert (Hs1 : settled c1).
  { subst c1. rewrite state_after_bind.
    apply commit_settles, tracked_loadRoom, settled_tracked, reachable_settled, Hreach. }
  assert (Hs2 : settled c2).
  { subst c2. rewrite state_after_bind.
    apply commit_settles, tracked_loadRoom, settled_tracked, Hs1. }
  assert (Hm1 : mounted c1 = true).
  { subst c1. rewrite state_after_bind, state_after_commit. apply mounted_run_effects. }
  assert (Hm2 : mounted c2 = true).
  { subst c2. rewrite state_after_bind, state_after_commit. apply mounted_run_effects. }
  pose proof (hooks_after_load code d c1) as Hh2. fold c2 in Hh2.
  destruct (rest_after_load code d c1) as [He2 Ho2]. fold c2 in He2, Ho2.
  pose proof (hooks_after_load code d c) as Hh1. fold c1 in Hh1.
  destruct (rest_after_load code d c) as [He1 Ho1]. fold c1 in He1, Ho1.
  clearbody c1 c2.
  assert (Hcells : same_cells (hooks c1) (hooks c2)
                   /\ render c2 = render c1 /\ polling c2 = polling c1).
  { unfold same_cells, render, render_page, isCreator, polling.
    rewrite Hh2, He2, Hh1, ?Ho1. simpl. repeat split. }
  destruct Hcells as (Hcells & Hrender & Hpoll).
  split; [exact Hcells | split; [exact Hrender |]].
  now rewrite (settled_timer_count c1 Hs1 Hm1), (settled_timer_count c2 Hs2 Hm2), Hpoll.
Qed.

Lemma load_idempotent_witness :
  let c := state_after (mount Sample.collecting_reply
                          (initial "DINNER" Sample.bob Sample.org)) in
  let d := mkLoadData (Sample.dinner true None) [Sample.pizza; Sample.sushi] false in
  let c1 := state_after ((loadRoom "DINNER" (Ok d) ;; commit) c) in
  let c2 := state_after ((loadRoom "DINNER" (Ok d) ;; commit) c1) in
  render c2 = render c1 /\ length (timers c2) = length (timers c1).
Proof.
  intros c d c1 c2.
  destruct (load_idempotent "DINNER" d c (reach_mount _ _ _ _)) as (_ & Hrender & Htimers).
  split; assumption.
Defined.

Lemma timers_stop_poll (c : Component) (t : Timer) :
  In t (timers (stop_poll c)) -> In t (timers c).
Proof.
  unfold stop_poll. destruct (poll_effect c) as [[dr dl [id|]]|]; simpl; auto.
  unfold clearInterval. intros H. now apply filter_In in H.
Qed.

Lemma handles_fresh_start_poll (c : Component) :
  handles_fresh c -> handles_fresh (start_poll c).
Proof.
  unfold handles_fresh, start_poll. intros H t.
  destruct (match room (hooks c) with
            | Some (_, rm) => votingOpen rm
            | None => false
            end); simpl; [| apply H].
  intros Hin. apply in_app_or in Hin as [Hin | [<- | []]].
  - specialize (H t Hin). lia.
  - simpl. lia.
Qed.

Lemma handles_fresh_run_effects (c : Component) :
  handles_fresh c -> handles_fresh (run_effects c).
Proof.
  intros H. unfold run_effects.
  assert (Hstop : handles_fresh (stop_poll c)).
  { intros t Hin. destruct (stop_poll_rest c) as (_ & _ & -> & _).
    apply H, timers_stop_poll, Hin. }
  destruct (poll_effect c) as [p|].
  - destruct (eqb_identity (dep_room p) (room_identity c)
              && (dep_loadRoom p =? roomCode c)); [exact H |].
    now apply handles_fresh_start_poll.
  - now apply handles_fresh_start_poll.
Qed.

Lemma handles_fresh_load (code : string) (reply : Reply LoadData) :
  any_reply reply -> keeps handles_fresh (loadRoom code reply).
Proof.
  intros _ c H. apply handles_fresh_run_effects in H.
  destruct reply; unfold loadRoom, new_object; run_handler; intros t Hin.
  - specialize (H t Hin). simpl. lia.
  - apply H, Hin.
Qed.

Lemma reachable_handles_fresh (c : Component) : reachable c -> handles_fresh c.
Proof.
  induction 1 as [code email org first | c a c' l Hreach IH Hstep].
  - refine (keeps_mount handles_fresh any_reply _ _ first I _ _);
      auto using handles_fresh_run_effects, handles_fresh_load.
    intros t [].
  - destruct (is_unmount a) eqn:Hun.
    + unfold step in Hstep. destruct a; try discriminate Hun. simpl in Hstep.
      destruct (mounted c); [| discriminate]. injection Hstep as <- _.
      intros t. unfold unmount. run_handler.
      destruct (stop_poll_rest c) as (_ & _ & -> & _).
      intros Hin. apply IH, timers_stop_poll, Hin.
    + refine (step_keeps handles_fresh any_reply _ _ _ _ c a c' l _ Hstep Hun
                (good_any a) IH);
        auto using handles_fresh_run_effects, handles_fresh_load.
Qed.

Lemma timers_mounted (c : Component) (t : Timer) :
  settled c -> In t (timers c) -> mounted c = true.
Proof.
  intros Hs Hin. rewrite (settled_timers c Hs) in Hin.
  destruct (mounted c); [reflexivity | contradiction].
Qed.

(** The poll effect meets a room object it has not seen, with voting
    open: the old interval is cleared and one new interval is set. *)
Lemma run_effects_new_room (c : Component) (ref : nat) (rm : Room) :
  tracked c -> mounted c = true ->
  room (hooks c) = Some (ref, rm) ->
  (forall p, poll_effect c = Some p -> dep_room p <> Some ref) ->
  votingOpen rm = true ->
  timers (run_effects c) = [mkTimer (fresh c) 5000 (roomCode c)].
Proof.
  intros Ht Hm Hroom Hnew Hopen. unfold run_effects, mounted in *.
  destruct (poll_effect c) as [p|] eqn:Hp; [| discriminate].
  assert (Hdiff : eqb_identity (dep_room p) (room_identity c) = false).
  { destruct (eqb_identity (dep_room p) (room_identity c)) eqn:Heq; [| reflexivity].
    apply eqb_identity_eq in Heq. unfold room_identity in Heq.
    rewrite Hroom in Heq. now contradiction (Hnew p eq_refl). }
  rewrite Hdiff. simpl.
  destruct (stop_poll_rest c) as (Hh & Hc & Hf & _).
  unfold start_poll. rewrite Hh, Hroom, Hopen, Hc, Hf. simpl.
  now rewrite (stop_poll_clears c Ht).
Qed.

Lemma loadRoom_ok_shape (code : string) (d : LoadData) (c : Component) :
  let c' := state_after (loadRoom code (Ok d) c) in
  room (hooks c') = Some (fresh (run_effects c), ld_room d)
  /\ fresh c' = S (fresh (run_effects c))
  /\ poll_effect c' = poll_effect (run_effects c)
  /\ roomCode c' = roomCode c.
Proof. unfold loadRoom, new_object. now run_handler. Qed.

(** Every poll that succeeds clears its interval and sets a new one, so
    the next poll comes 5000 ms after the reply, not after the last tick;
    a poll that fails keeps the interval it was fired from. *)
Theorem poll_rearms_timer (c : Component) (t : Timer) :
  reachable c -> timers c = [t] ->
  (forall d c' l,
     votingOpen (ld_room d) = true ->
     step c (PollTick (timer_id t) (Ok d)) = Some (c', l) ->
     exists t', timers c' = [t'] /\ timer_id t' <> timer_id t
                /\ delay t' = 5000%Z /\ callback_code t' = callback_code t)
  /\ (forall err c' l,
        step c (PollTick (timer_id t) (Failed err)) = Some (c', l) -> c' = c).
Proof.
  intros Hreach Ht.
  pose proof (reachable_settled c Hreach) as Hs.
  assert (Hm : mounted c = true).
  { apply (timers_mounted c t Hs). rewrite Ht. now left. }
  assert (Hcode : callback_code t = roomCode c).
  { pose proof (settled_timers c Hs) as Hst. rewrite Ht, Hm in Hst.
    destruct (polling c); [| discriminate]. simpl in Hst.
    destruct (poll_effect c) as [[dr dl [id|]]|]; try discriminate.
    now injection Hst as ->. }
  assert (Hstep : forall reply c' l,
            step c (PollTick (timer_id t) reply) = Some (c', l) ->
            c' = state_after ((loadRoom (roomCode c) reply ;; commit) c)).
  { intros reply c' l H. unfold step in H. simpl in H. rewrite Ht in H.
    unfold find_timer in H. simpl in H. rewrite Nat.eqb_refl, Hcode in H.
    now injection H as <- _. }
  split.
  - intros d c' l Hopen H. apply Hstep in H. subst c'.
    rewrite state_after_bind, state_after_commit.
    destruct (loadRoom_ok_shape (roomCode c) d c) as (Hroom & Hfresh & Hpoll & Hrc).
    rewrite (run_effects_settled c Hs Hm) in Hroom, Hfresh, Hpoll.
    rewrite (run_effects_new_room _ (fresh c) (ld_room d)); auto.
    + eexists. split; [reflexivity |]. cbn [timer_id delay callback_code].
      rewrite Hfresh, Hrc, Hcode. repeat split.
      pose proof (reachable_handles_fresh c Hreach t) as Hold.
      rewrite Ht in Hold. specialize (Hold (or_introl eq_refl)). lia.
    + apply tracked_loadRoom, settled_tracked, Hs.
    + unfold mounted in *. rewrite Hpoll.
      destruct (poll_effect c); [reflexivity | discriminate].
    + intros p Hp. rewrite Hpoll in Hp.
      destruct Hs as [[_ Htr] _]. rewrite Hp in Htr.
      destruct Htr as (_ & Hdep & _).
      intros Heq. specialize (Hdep _ Heq). lia.
  - intros err c' l H. apply Hstep in H. subst c'.
    apply (rejected_load_keeps c (roomCode c) err Hreach Hm).
Qed.

Lemma poll_rearms_timer_witness :
  let c := state_after (mount Sample.open_reply
                          (initial "DINNER" Sample.bob Sample.org)) in
  exists c' l,
    step c (PollTick 1 Sample.unreachable) = Some (c', l) /\ c' = c.
Proof.
  intros c. eexists. eexists. split; [vm_compute; reflexivity |].
  destruct (poll_rearms_timer c (mkTimer 1 5000 "DINNER") (reach_mount _ _ _ _) eq_refl)
    as [_ Hfail].
  eapply (Hfail (mkApiError None)). vm_compute. reflexivity.
Defined.

(** ** Operations one after the other *)

(** An accepted option empties the text field, so a second click on Add
    Option right after it is refused locally: nothing is sent twice. *)
Theorem accepted_submit_clears_field (c : Component) (ref : nat) (rm : Room)
    (r2 : Reply LoadData) :
  room (hooks c) = Some (ref, rm) ->
  Js.trim (optionText (hooks c)) <> "" ->
  let c' := state_after ((submitOption (Ok tt) r2 ;; commit) c) in
  optionText (hooks c') = ""
  /\ forall r1' r2',
       requests (log_of (submitOption r1' r2' c')) = []
       /\ toasts (log_of (submitOption r1' r2' c')) = [(error, "Enter option text")].
Proof.
  intros Hroom Htext c'.
  assert (Hempty : optionText (hooks c') = "").
  { subst c'. rewrite state_after_bind, state_after_commit, hooks_run_effects.
    unfold submitOption, with_room. rewrite bind_get, Hroom.
    destruct (Js.trim (optionText (hooks c))); [now contradiction Htext |].
    destruct r2; unfold loadRoom, new_object; now run_handler. }
  split; [exact Hempty |].
  intros r1' r2'. unfold submitOption. rewrite bind_get, Hempty. now simpl.
Qed.

Lemma accepted_submit_clears_field_witness :
  let c := with_hooks (setOptionText " Tacos ")
             (state_after (mount Sample.collecting_reply
                             (initial "DINNER" Sample.bob Sample.org))) in
  let c' := state_after ((submitOption (Ok tt) Sample.collecting_reply ;; commit) c) in
  optionText (hooks c') = "".
Proof.
  intros c c'.
  apply (accepted_submit_clears_field c 0 (Sample.dinner false None)
           Sample.collecting_reply eq_refl).
  discriminate.
Defined.

(** When the creator opens voting and the reload shows the room open,
    the poll timer, which was not running, starts; the Open Voting button
    and the submission form go, and the vote is offered to a participant
    who has not voted. *)
Theorem open_voting_starts_poll (c c' : Component) (d : LoadData) (l : list Event) :
  reachable c ->
  step c (ClickOpenVoting (Ok tt) (Ok d)) = Some (c', l) ->
  votingOpen (ld_room d) = true ->
  timers c = []
  /\ (exists id, timers c' = [mkTimer id 5000 (roomCode c)])
  /\ offers_openVoting (render c') = false
  /\ offers_submitOption (render c') = false
  /\ offers_vote (render c') = negb (ld_hasVoted d).
Proof.
  intros Hreach Hstep Hopen.
  pose proof (reachable_settled c Hreach) as Hs.
  pose proof (reachable_settled c' (reach_step c _ c' l Hreach Hstep)) as Hs'.
  unfold step in Hstep. simpl in Hstep.
  destruct (mounted c && offers_openVoting (render c)) eqn:Hoffer; [| discriminate].
  apply andb_true_iff in Hoffer as [Hm Hoffer].
  injection Hstep as <- _.
  unfold render in Hoffer. destruct (loading (hooks c)); [discriminate |].
  destruct (room (hooks c)) as [[ref rm]|] eqn:Hroom; [| discriminate].
  simpl in Hoffer.
  apply andb_true_iff in Hoffer as [Hoffer _].
  apply andb_true_iff in Hoffer as [_ Hclosed].
  apply negb_true_iff in Hclosed.
  assert (Hcells : hooks (state_after ((openVoting (Ok tt) (Ok d) ;; commit) c))
                   = hooks (state_after ((loadRoom (roomCode c) (Ok d) ;; commit) c))
                   /\ roomCode (state_after ((openVoting (Ok tt) (Ok d) ;; commit) c))
                      = roomCode c).
  { rewrite !state_after_bind, !state_after_commit, !hooks_run_effects,
      !roomCode_run_effects.
    unfold openVoting. rewrite bind_get, Hroom.
    unfold loadRoom, new_object. run_handler.
    now rewrite !(run_effects_settled c Hs Hm). }
  destruct Hcells as [Hcells Hcode].
  split.
  { rewrite (settled_timers c Hs). unfold polling. rewrite Hroom, Hclosed.
    now rewrite andb_false_r. }
  split.
  { rewrite <- Hcode. apply settled_polling; [exact Hs' | |].
    - rewrite state_after_bind, state_after_commit. apply mounted_run_effects.
    - unfold polling. rewrite Hcells, hooks_after_load. exact Hopen. }
  unfold render, render_page. rewrite Hcells, hooks_after_load. simpl.
  rewrite Hopen. simpl. rewrite andb_false_r. repeat split.
  now destruct (ld_hasVoted d).
Qed.

Lemma open_voting_starts_poll_witness :
  let c := state_after (mount Sample.collecting_reply
                          (initial "DINNER" Sample.ann Sample.org)) in
  exists c' l,
    step c (ClickOpenVoting (Ok tt) Sample.open_reply) = Some (c', l)
    /\ timers c = []
    /\ exists id, timers c' = [mkTimer id 5000 "DINNER"].
Proof.
  intros c. eexists. eexists. split; [vm_compute; reflexivity |].
  destruct (open_voting_starts_poll c _
              (mkLoadData (Sample.dinner true None) [Sample.pizza; Sample.sushi] false)
              _ (reach_mount _ _ _ _) eq_refl eq_refl) as (Hnone & Hone & _).
  split; [exact Hnone | exact Hone].
Defined.

Lemma or_else_truthy (a : option string) (b : string) :
  Js.truthy b = true -> Js.truthy (Js.or_else a b) = true.
Proof.
  intros Hb. unfold Js.or_else. destruct a as [s|]; [| exact Hb].
  destruct (Js.truthy s) eqn:Hs; [exact Hs | exact Hb].
Qed.

(** A tiebreaker that succeeds takes the prompt away for good, whatever
    the reload brings.  When the reload succeeds the banner shows the
    final text of the reload, when that is not empty.  When the reload
    fails the final decision is on display all the same, never empty: it
    is the text of the first option of the list held before the call
    whose id is the winner's, and ['Unknown'] when that text is empty or
    when the held list has no option with that id. *)
Theorem tiebreaker_hides_prompt (c : Component) (ref : nat) (rm : Room)
    (m : Method) (win : string) (r2 : Reply LoadData) :
  loading (hooks c) = false ->
  room (hooks c) = Some (ref, rm) ->
  let c' := state_after ((triggerTiebreaker m (Ok (mkTiebreakerData win)) r2 ;; commit) c) in
  offers_tiebreaker (render c') = false
  /\ match r2 with
     | Ok d =>
         exists p,
           render c' = RoomPage p
           /\ final_banner p
              = if Js.truthy_opt (resolve_final d) then resolve_final d else None
     | Failed _ =>
         exists p shown,
           render c' = RoomPage p
           /\ final_banner p = Some shown
           /\ shown <> ""
           /\ (forall pre o post,
                 options (hooks c) = (pre ++ o :: post)%list ->
                 opt_id o = win ->
                 (forall x, In x pre -> opt_id x <> win) ->
                 (text o <> "" -> shown = text o)
                 /\ (text o = "" -> shown = "Unknown"))
           /\ ((forall o, In o (options (hooks c)) -> opt_id o <> win) ->
                shown = "Unknown")
     end.
Proof.
  intros Hloaded Hroom c'.
  assert (Hcells : tiedOptionIds (hooks c') = []
                   /\ loading (hooks c') = false
                   /\ match r2 with
                      | Ok d =>
                          (exists ref', room (hooks c') = Some (ref', ld_room d))
                          /\ finalOptionText (hooks c') = resolve_final d
                      | Failed _ =>
                          room (hooks c') = Some (ref, rm)
                          /\ finalOptionText (hooks c')
                             = Some (Js.or_else
                                       (option_map text
                                          (find_option win (options (hooks c))))
                                       "Unknown")
                      end).
  { subst c'. rewrite state_after_bind, state_after_commit, hooks_run_effects.
    unfold triggerTiebreaker. rewrite bind_get, Hroom.
    destruct r2; unfold loadRoom, new_object; run_handler; auto.
    repeat split. eexists. reflexivity. }
  destruct Hcells as (Htied & Hl & Hrest).
  split.
  - unfold render. rewrite Hl.
    destruct (room (hooks c')) as [[ref' rm']|]; [| reflexivity].
    simpl. rewrite Htied. simpl. now rewrite andb_false_r.
  - destruct r2 as [d | err].
    + destruct Hrest as ((ref' & Hr) & Hf).
      unfold render. rewrite Hl, Hr. eexists. split; [reflexivity |].
      simpl. now rewrite Hf.
    + destruct Hrest as (Hr & Hf).
      unfold render. rewrite Hl, Hr. eexists. eexists.
      split; [reflexivity |]. simpl. rewrite Hf. simpl.
      pose proof (or_else_truthy (option_map text (find_option win (options (hooks c))))
                    "Unknown" eq_refl) as Htruthy.
      rewrite Htruthy. split; [reflexivity |].
      split; [intros Hempty; rewrite Hempty in Htruthy; discriminate |].
      split.
      * intros pre o post Hlist Ho Hpre.
        rewrite Hlist, (find_option_first win pre o post Ho Hpre). simpl.
        destruct (text o) as [| ch rest]; simpl; split; intros H;
          try reflexivity; try discriminate H; now contradiction H.
      * intros Hnone. now rewrite (find_option_none win _ Hnone).
Qed.

Lemma tiebreaker_hides_prompt_witness :
  let c := state_after ((closeVoting Sample.tie_reply Sample.unreachable ;; commit)
             (state_after (mount Sample.open_reply
                             (initial "DINNER" Sample.ann Sample.org)))) in
  let c' := state_after ((triggerTiebreaker dice (Ok (mkTiebreakerData "s1"))
                            Sample.unreachable ;; commit) c) in
  offers_tiebreaker (render c) = true
  /\ offers_tiebreaker (render c') = false
  /\ exists p, render c' = RoomPage p /\ final_banner p = Some "Sushi".
Proof.
  intros c c'.
  assert (Hloaded : loading (hooks c) = false) by (vm_compute; reflexivity).
  assert (Hroom : room (hooks c) = Some (0, Sample.dinner true None))
    by (vm_compute; reflexivity).
  assert (Hopts : options (hooks c) = ([Sample.pizza] ++ Sample.sushi :: [])%list)
    by (vm_compute; reflexivity).
  destruct (tiebreaker_hides_prompt c 0 (Sample.dinner true None) dice "s1"
              Sample.unreachable Hloaded Hroom)
    as (Hgone & p & shown & Hp & Hbanner & _ & Hfirst & _).
  split; [vm_compute; reflexivity | split; [exact Hgone |]].
  exists p. split; [exact Hp |].
  destruct (Hfirst [Sample.pizza] Sample.sushi [] Hopts eq_refl) as [Htext _].
  - intros x [<- | []]. discriminate.
  - rewrite Hbanner, Htext; [reflexivity | discriminate].
Defined.

(** A change of room code resets nothing: the tie state, the selection
    and the typed text of the old room are carried over, and when the
    load for the new code fails the old room stays on display, cell for
    cell, with its old share link, under the new code. *)
Theorem room_code_change_keeps_cells (c : Component) (code : string)
    (reply : Reply LoadData) :
  reachable c -> mounted c = true -> roomCode c <> code ->
  let c' := state_after ((changeRoomCode code reply ;; commit) c) in
  roomCode c' = code
  /\ tiedOptionIds (hooks c') = tiedOptionIds (hooks c)
  /\ selectedOptionId (hooks c') = selectedOptionId (hooks c)
  /\ optionText (hooks c') = optionText (hooks c)
  /\ match reply with
     | Ok d => synchronized (hooks c') d
     | Failed _ => hooks c' = hooks c
     end.
Proof.
  intros Hreach Hm Hdiff c'.
  pose proof (loading_stays_down c Hreach) as Hload.
  split; [apply changeRoomCode_roomCode |].
  subst c'. rewrite state_after_bind, state_after_commit, hooks_run_effects.
  unfold changeRoomCode. rewrite bind_get.
  destruct (roomCode c =? code) eqn:Hsame.
  - apply String.eqb_eq in Hsame. now contradiction Hdiff.
  - rewrite !state_after_bind, state_after_commit, hooks_run_effects.
    destruct reply as [d | err]; unfold loadRoom, new_object, synchronized;
      run_handler; repeat split.
    destruct (hooks c); simpl in *; now subst.
Qed.

Lemma room_code_change_keeps_cells_witness :
  let c := state_after ((closeVoting Sample.tie_reply Sample.unreachable ;; commit)
             (state_after (mount Sample.open_reply
                             (initial "DINNER" Sample.ann Sample.org)))) in
  let c' := state_after ((changeRoomCode "LUNCH" Sample.unreachable ;; commit) c) in
  roomCode c' = "LUNCH" /\ tiedOptionIds (hooks c') = ["p1"; "s1"]
  /\ hooks c' = hooks c.
Proof.
  intros c c'.
  assert (Hreach : reachable c).
  { apply (reach_step
             (state_after (mount Sample.open_reply
                             (initial "DINNER" Sample.ann Sample.org)))
             (ClickCloseVoting Sample.tie_reply Sample.unreachable) c
             (log_of ((closeVoting Sample.tie_reply Sample.unreachable ;; commit)
                (state_after (mount Sample.open_reply
                                (initial "DINNER" Sample.ann Sample.org)))))).
    - constructor.
    - vm_compute. reflexivity. }
  assert (Hm : mounted c = true) by (vm_compute; reflexivity).
  assert (Hdiff : roomCode c <> "LUNCH") by (vm_compute; discriminate).
  destruct (room_code_change_keeps_cells c "LUNCH" Sample.unreachable Hreach Hm Hdiff)
    as (Hcode & Htied & _ & _ & Hcells).
  split; [exact Hcode | split; [| exact Hcells]].
  unfold c'. rewrite Htied. vm_compute. reflexivity.
Defined.

(** ** The home view, the forms and the session *)

(** [createRoom] refuses a title that is blank after trimming without
    sending anything.  Otherwise it posts the trimmed title and
    description once, with 0 participants (no limit) when the field is
    empty; it lowers the creating flag whatever the reply, and navigates,
    to the room code the server returned, only when the room was created. *)
Theorem createRoom_outcomes (s : Home.State) (reply : Reply CreateData) :
  let res := Home.createRoom reply s in
  (Js.trim (Home.newRoomTitle s) = "" ->
     log_of res = [Toast error "Room title is required"] /\ state_after res = s)
  /\ (Js.trim (Home.newRoomTitle s) <> "" ->
      (exists participants,
         requests (log_of res)
           = [POST "/rooms" (CreateBody (Js.trim (Home.newRoomTitle s))
                               (Js.trim (Home.newRoomDesc s)) participants)]
         /\ (Home.newRoomMaxP s = "" -> participants = Js.Zero)
         /\ (Home.newRoomMaxP s <> "" ->
               participants = Js.NumberOf (Home.newRoomMaxP s)))
      /\ Home.creating (state_after res) = false
      /\ navigations (log_of res)
         = match reply with
           | Ok data => ["/room/" ++ cr_roomCode data]
           | Failed _ => []
           end).
Proof.
  intros res. subst res. unfold Home.createRoom. rewrite bind_get. split.
  - intros ->. now simpl.
  - intros Htitle.
    destruct (Js.trim (Home.newRoomTitle s)) as [| ch rest]; [now contradiction Htitle |].
    simpl negb. cbv iota.
    split; [| destruct reply; now simpl].
    eexists. split; [destruct reply; reflexivity |].
    destruct (Home.newRoomMaxP s); simpl; split; intros H;
      try reflexivity; try discriminate H; now contradiction H.
Qed.

Lemma createRoom_outcomes_witness :
  let s := Home.mkState "" false "  Dinner " " where to eat " "" in
  let res := Home.createRoom (Ok (mkCreateData "AB12")) s in
  requests (log_of res) = [POST "/rooms" (CreateBody "Dinner" "where to eat" Js.Zero)]
  /\ navigations (log_of res) = ["/room/AB12"].
Proof.
  intros s res.
  destruct (createRoom_outcomes s (Ok (mkCreateData "AB12"))) as [_ Hsend].
  destruct Hsend as ((participants & Hreq & Hzero & _) & _ & Hnav); [discriminate |].
  fold res in Hreq, Hnav. rewrite Hreq, (Hzero eq_refl).
  split; [reflexivity | exact Hnav].
Defined.

(** In every state of the session, the provider's token is the stored
    one, so a protected page is rendered exactly when the requests of
    [api] carry a bearer header; and whoever holds a token has a
    non-empty email to be compared with the creator of a room. *)
Theorem session_consistent (w : Auth.World) :
  Auth.reachable w ->
  Auth.token (Auth.auth w) = Auth.stored w
  /\ (forall (A : Type) (page : A),
        Auth.PrivateRoute w page = Auth.Children page
        <-> Auth.authorization w <> None)
  /\ (Js.truthy_opt (Auth.token (Auth.auth w)) = true ->
      Js.truthy_opt (Auth.email (Auth.auth w)) = true).
Proof.
  intros Hreach.
  assert (Hinv : Auth.token (Auth.auth w) = Auth.stored w
                 /\ (Js.truthy_opt (Auth.token (Auth.auth w)) = true ->
                     Js.truthy_opt (Auth.email (Auth.auth w)) = true)).
  { assert (Hfetch : forall v,
              Auth.token (Auth.auth v) = Auth.stored v ->
              Auth.token (Auth.auth (Auth.fetch_profile v))
              = Auth.stored (Auth.fetch_profile v)
              /\ (Js.truthy_opt (Auth.token (Auth.auth (Auth.fetch_profile v))) = true ->
                  Js.truthy_opt (Auth.email (Auth.auth (Auth.fetch_profile v))) = true)).
    { intros v Hv. unfold Auth.fetch_profile.
      destruct (Js.truthy_opt (Auth.token (Auth.auth v))) eqn:Htok; simpl.
      - destruct (Js.truthy_opt (Auth.email (Auth.auth v))) eqn:Hem; simpl; auto.
      - split; [exact Hv | rewrite Htok; discriminate]. }
    destruct Hreach as [kept | v a _]; apply Hfetch.
    - reflexivity.
    - now destruct a. }
  destruct Hinv as [Htok Hemail].
  split; [exact Htok | split; [| exact Hemail]].
  intros A page. unfold Auth.PrivateRoute, Auth.authorization. rewrite Htok.
  destruct (Auth.stored w) as [t|]; simpl.
  - destruct (Js.truthy t); simpl; split; intros H;
      try discriminate; try reflexivity; now contradiction H.
  - split; intros H; [discriminate | now contradiction H].
Qed.

Lemma session_consistent_witness :
  let w := Auth.step (Auth.fetch_profile (Auth.start None))
             (Auth.Login "t0k3n" "") in
  Auth.authorization w = Some "Bearer t0k3n"
  /\ Js.truthy_opt (Auth.email (Auth.auth w)) = true.
Proof.
  intros w.
  destruct (session_consistent w) as (_ & _ & Hemail).
  - apply Auth.reach_step. constructor.
  - split; [reflexivity | apply Hemail; reflexivity].
Defined.

(** A login or signup the server accepts stores the token, names the
    user and navigates to the home page, where the guard lets through
    whoever got a non-empty token and sends the others back to the login
    page; one the server rejects leaves the session as it was and
    navigates nowhere.  Either way the form's loading flag ends down. *)
Theorem auth_submit_outcomes (signup : bool) (s : Login.State)
    (reply : Reply AuthData) (w : Auth.World) (A : Type) (page : A) :
  let res := if signup then Signup.handleSubmit reply s else Login.handleSubmit reply s in
  let w' := Auth.after_events (log_of res) w in
  Login.loading (state_after res) = false
  /\ requests (log_of res)
     = [POST (if signup then "/auth/signup" else "/auth/login")
          (AuthBody (Login.email s) (Login.password s))]
  /\ match reply with
     | Ok data =>
         navigations (log_of res) = ["/"]
         /\ Auth.stored w' = Some (token data)
         /\ Auth.PrivateRoute w' page
            = (if Js.truthy (token data) then Auth.Children page
               else Auth.NavigateTo "/login")
         /\ (Js.truthy (token data) = true ->
             Auth.authorization w' = Some ("Bearer " ++ token data)
             /\ Auth.email (Auth.auth w')
                = Some (Js.or_else (Some (ad_email data)) "You"))
     | Failed _ => navigations (log_of res) = [] /\ w' = w
     end.
Proof.
  intros res w'. subst w' res.
  destruct signup, reply as [[tok em] | err]; simpl;
    (split; [reflexivity |]); (split; [reflexivity |]);
    try (split; reflexivity);
    unfold Auth.step, Auth.fetch_profile, Auth.login, Auth.PrivateRoute,
      Auth.authorization; simpl;
    destruct (Js.truthy tok) eqn:Htok; simpl;
    destruct (Js.truthy em) eqn:Hem; simpl; rewrite ?Htok;
    repeat split; try discriminate; intros _; split; reflexivity.
Qed.

(** The past decisions view leaves its loading screen whatever the
    reply; a fetch that fails shows the same "No past decisions found"
    as an empty history, the toast apart, and a fetch that succeeds shows
    the rooms of the reply, all of them and in their order. *)
Theorem past_decisions_screen (reply : Reply (list PastRoom)) :
  let res := PastDecisions.fetchPast reply past_initial in
  past_render past_initial = PastLoading
  /\ requests (log_of res) = [GET "/rooms/past/rooms"]
  /\ match reply with
     | Ok [] => past_render (state_after res) = PastNone /\ toasts (log_of res) = []
     | Ok (r :: rest) =>
         past_render (state_after res) = PastList (r :: rest)
         /\ toasts (log_of res) = []
     | Failed _ =>
         past_render (state_after res) = PastNone
         /\ toasts (log_of res) = [(error, "Failed to load past decisions")]
     end.
Proof.
  intros res. subst res.
  destruct reply as [[| r rest] | err]; repeat split.
Qed.

(** ** Selecting, voting and the mark of one's vote *)

Lemma voted_rows (h : Hooks) (rm : Room) (opts : list Option) :
  votingOpen rm = true -> hasVoted h = true ->
  flat_map (render_row h rm) opts
  = map (fun o => VotedRow (text o) (eqb_selected (selectedOptionId h) (opt_id o))) opts.
Proof.
  intros Hopen Hvoted. induction opts as [| o rest IH]; simpl.
  - reflexivity.
  - unfold render_row at 1. rewrite Hopen, Hvoted. simpl. now rewrite IH.
Qed.

(** After an accepted vote, with the reload showing the room open and
    the vote counted, every option is listed in the voted form and the
    mark "(Your vote)" is on the options whose id is the selected one.
    The selection lives in the view only: a view mounted afresh on the
    same room marks no option, voted or not. *)
Theorem your_vote_mark (d : LoadData) :
  votingOpen (ld_room d) = true -> ld_hasVoted d = true ->
  (forall c ref rm id,
     room (hooks c) = Some (ref, rm) ->
     selectedOptionId (hooks c) = Some id -> id <> "" ->
     let c' := state_after ((vote (Ok tt) (Ok d) ;; commit) c) in
     exists p, render c' = RoomPage p
       /\ vote_button p = None
       /\ rows p = map (fun o => VotedRow (text o) (id =? opt_id o)) (ld_options d))
  /\ (forall code email org,
        let c := state_after (mount (Ok d) (initial code email org)) in
        exists p, render c = RoomPage p
          /\ rows p = map (fun o => VotedRow (text o) false) (ld_options d)).
Proof.
  intros Hopen Hvoted. split.
  - intros c ref rm id Hroom Hsel Hid c'.
    assert (Hcells : loading (hooks c') = false
                     /\ (exists ref', room (hooks c') = Some (ref', ld_room d))
                     /\ hasVoted (hooks c') = ld_hasVoted d
                     /\ options (hooks c') = ld_options d
                     /\ selectedOptionId (hooks c') = Some id).
    { subst c'. rewrite !state_after_bind, !state_after_commit, !hooks_run_effects.
      unfold vote, with_room. rewrite bind_get, Hsel, Hroom.
      destruct id; [now contradiction Hid |].
      unfold loadRoom, new_object. run_handler.
      repeat split; auto. eexists. reflexivity. }
    destruct Hcells as (Hl & (ref' & Hr) & Hv & Ho & Hs).
    unfold render. rewrite Hl, Hr. eexists. split; [reflexivity |].
    unfold render_page. cbn [vote_button rows]. rewrite Hv, Ho, Hopen, Hvoted.
    split; [reflexivity |].
    rewrite voted_rows by (try assumption; now rewrite Hv).
    now rewrite Hs.
  - intros code email org c.
    assert (Hcells : hooks c = hooks (state_after ((loadRoom code (Ok d) ;; commit)
                                        (run_effects (initial code email org))))).
    { subst c. unfold mount. rewrite !state_after_bind. reflexivity. }
    rewrite hooks_after_load in Hcells.
    unfold render, render_page. rewrite Hcells. simpl.
    eexists. split; [reflexivity |]. simpl.
    now rewrite voted_rows by assumption.
Qed.

Lemma your_vote_mark_witness :
  let c := with_hooks (setSelectedOptionId (Some "s1"))
             (state_after (mount Sample.open_reply
                             (initial "DINNER" Sample.bob Sample.org))) in
  let c' := state_after ((vote (Ok tt) Sample.voted_reply ;; commit) c) in
  exists p, render c' = RoomPage p
    /\ rows p = [VotedRow "Pizza" false; VotedRow "Sushi" true].
Proof.
  intros c c'.
  destruct (your_vote_mark
              (mkLoadData (Sample.dinner true None) [Sample.pizza; Sample.sushi] true)
              eq_refl eq_refl) as [Hmark _].
  destruct (Hmark c 0 (Sample.dinner true None) "s1" eq_refl eq_refl) as (p & Hp & _ & Hrows).
  - discriminate.
  - exists p. split; [exact Hp | exact Hrows].
Defined.

Lemma radio_of_option (h : Hooks) (rm : Room) (opts : list Option) (id : string) :
  existsb (fun r => match r with
                    | RadioRow v _ disabled => (v =? id) && negb disabled
                    | _ => false
                    end) (flat_map (render_row h rm) opts) = true ->
  (exists o, In o opts /\ opt_id o = id)
  /\ votingOpen rm = true /\ hasVoted h = false /\ voteCasting h = false.
Proof.
  induction opts as [| o rest IH]; simpl; [discriminate |].
  rewrite existsb_app. intros H. apply orb_true_iff in H as [H | H].
  - unfold render_row in H.
    destruct (votingOpen rm), (hasVoted h); simpl in H; try discriminate.
    rewrite orb_false_r in H. apply andb_true_iff in H as [Hid Hcast].
    apply String.eqb_eq in Hid. apply negb_true_iff in Hcast.
    repeat split; auto. exists o. auto.
  - destruct (IH H) as ((o' & Hin & Hid) & Hrest).
    split; [| exact Hrest]. exists o'. auto.
Qed.

(** Only an option on display can be selected, and only while voting is
    open and the participant has not voted; the vote that follows is sent
    to the held room with the id of that option.  An option whose id is
    empty can be selected but not voted for: the Vote button stays
    disabled. *)
Theorem select_then_vote (c c1 : Component) (id : string) (l1 : list Event) :
  reachable c ->
  step c (SelectOption id) = Some (c1, l1) ->
  (exists o, In o (options (hooks c)) /\ opt_id o = id)
  /\ l1 = [Commit (hooks c1)]
  /\ selectedOptionId (hooks c1) = Some id
  /\ exists ref rm,
       room (hooks c) = Some (ref, rm)
       /\ votingOpen rm = true
       /\ forall r1 r2,
            match step c1 (ClickVote r1 r2) with
            | Some (_, l2) =>
                id <> ""
                /\ exists rest,
                     requests l2
                     = POST ("/rooms/" ++ room_id rm ++ "/vote") (VoteBody (Some id))
                       :: rest
            | None => id = ""
            end.
Proof.
  intros Hreach Hstep.
  pose proof (reachable_settled c Hreach) as Hs.
  unfold step in Hstep. simpl in Hstep.
  destruct (mounted c && offers_radio (render c) id) eqn:Hoffer; [| discriminate].
  apply andb_true_iff in Hoffer as [Hm Hoffer].
  injection Hstep as <- <-.
  unfold render in Hoffer. destruct (loading (hooks c)) eqn:Hload; [discriminate |].
  destruct (room (hooks c)) as [[ref rm]|] eqn:Hroom; [| discriminate].
  simpl in Hoffer.
  destruct (radio_of_option _ _ _ _ Hoffer) as (Hopt & Hopen & Hvoted & Hcast).
  assert (Hc1 : state_after ((set (setSelectedOptionId (Some id)) ;; commit) c)
                = with_hooks (setSelectedOptionId (Some id)) c).
  { rewrite state_after_bind, state_after_commit.
    apply (run_effects_same_room _ c Hs Hm). reflexivity. }
  split; [exact Hopt |].
  split; [unfold set; now run_handler |].
  rewrite Hc1. split; [reflexivity |].
  exists ref, rm. split; [reflexivity | split; [exact Hopen |]].
  intros r1 r2. unfold step, handler_of, render.
  cbn [hooks with_hooks loading setSelectedOptionId room]. rewrite Hload, Hroom.
  unfold render_page, mounted.
  cbn [hooks with_hooks poll_effect vote_button hasVoted voteCasting
       selectedOptionId setSelectedOptionId].
  unfold mounted in Hm. rewrite Hopen, Hvoted, Hcast.
  destruct (poll_effect c); [| discriminate]. simpl.
  destruct id as [| ch rest]; cbn [Js.truthy negb]; cbv iota; [reflexivity |].
  split; [discriminate |].
  rewrite log_of_bind. unfold vote, with_room. rewrite bind_get.
  cbn [hooks with_hooks selectedOptionId setSelectedOptionId room Js.truthy_opt
       Js.truthy negb].
  rewrite Hroom.
  destruct r1 as [[] | err]; [destruct r2 |]; unfold loadRoom, new_object;
    run_handler; eexists; reflexivity.
Qed.

Lemma select_then_vote_witness :
  let c := state_after (mount Sample.open_reply
                          (initial "DINNER" Sample.bob Sample.org)) in
  exists c1 l1,
    step c (SelectOption "s1") = Some (c1, l1)
    /\ selectedOptionId (hooks c1) = Some "s1".
Proof.
  intros c. eexists. eexists. split; [vm_compute; reflexivity |].
  destruct (select_then_vote c _ "s1" _ (reach_mount _ _ _ _) eq_refl)
    as (_ & _ & Hsel & _).
  exact Hsel.
Defined.

(** When the creator closes voting, the server reports no tie and the
    reload shows the room closed, the poll timer, which was running, is
    cleared; the vote and the Close Voting button go, and the final
    decision of the reload is on display when its text is not empty. *)
Theorem close_without_tie_stops_poll (c c' : Component) (ids : list string)
    (d : LoadData) (l : list Event) :
  reachable c ->
  step c (ClickCloseVoting (Ok (mkCloseData false ids)) (Ok d)) = Some (c', l) ->
  votingOpen (ld_room d) = false ->
  (exists id, timers c = [mkTimer id 5000 (roomCode c)])
  /\ timers c' = []
  /\ offers_closeVoting (render c') = false
  /\ offers_vote (render c') = false
  /\ exists p, render c' = RoomPage p
       /\ final_banner p
          = if Js.truthy_opt (resolve_final d) then resolve_final d else None.
Proof.
  intros Hreach Hstep Hclosed.
  pose proof (reachable_settled c Hreach) as Hs.
  pose proof (reachable_settled c' (reach_step c _ c' l Hreach Hstep)) as Hs'.
  destruct (idle_at_rest c Hreach) as (_ & Hclosing & _).
  unfold step in Hstep. simpl in Hstep. unfold render in Hstep.
  destruct (loading (hooks c)); [discriminate |].
  destruct (room (hooks c)) as [[ref rm]|] eqn:Hroom; [| discriminate].
  simpl in Hstep.
  destruct (mounted c) eqn:Hm; [| discriminate].
  destruct (isCreator c && votingOpen rm) eqn:Hoffer; [| discriminate].
  apply andb_true_iff in Hoffer as [_ Hopen].
  simpl in Hstep. rewrite Hclosing in Hstep. simpl in Hstep.
  injection Hstep as <- _.
  assert (Hcells : loading (hooks (state_after
                     ((closeVoting (Ok (mkCloseData false ids)) (Ok d) ;; commit) c)))
                   = false
                   /\ (exists ref',
                         room (hooks (state_after
                           ((closeVoting (Ok (mkCloseData false ids)) (Ok d) ;; commit) c)))
                         = Some (ref', ld_room d))
                   /\ hasVoted (hooks (state_after
                        ((closeVoting (Ok (mkCloseData false ids)) (Ok d) ;; commit) c)))
                      = ld_hasVoted d
                   /\ finalOptionText (hooks (state_after
                        ((closeVoting (Ok (mkCloseData false ids)) (Ok d) ;; commit) c)))
                      = resolve_final d).
  { rewrite !state_after_bind, !state_after_commit, !hooks_run_effects.
    unfold closeVoting. rewrite bind_get, Hroom.
    unfold loadRoom, new_object. run_handler.
    repeat split; auto. eexists. reflexivity. }
  destruct Hcells as (Hl & (ref' & Hr) & Hv & Hf).
  split.
  { apply settled_polling; [exact Hs | exact Hm |].
    unfold polling. now rewrite Hroom. }
  split.
  { rewrite (settled_timers _ Hs'). unfold polling. rewrite Hr, Hclosed.
    now rewrite andb_false_r. }
  unfold render. rewrite Hl, Hr. unfold render_page.
  cbn [offers_closeVoting offers_vote close_voting_button vote_button final_banner].
  rewrite Hclosed, Hf, andb_false_r. simpl.
  repeat split. eexists. split; reflexivity.
Qed.

Lemma close_without_tie_stops_poll_witness :
  let c := state_after (mount Sample.open_reply
                          (initial "DINNER" Sample.ann Sample.org)) in
  exists c' l,
    step c (ClickCloseVoting Sample.no_tie_reply Sample.decided_reply) = Some (c', l)
    /\ timers c = [mkTimer 1 5000 "DINNER"]
    /\ timers c' = [].
Proof.
  intros c. eexists. eexists. split; [vm_compute; reflexivity |].
  destruct (close_without_tie_stops_poll c _ []
              (mkLoadData (Sample.dinner false (Some (mkFinalDecision "p1")))
                 [Sample.pizza; Sample.sushi] true)
              _ (reach_mount _ _ _ _) eq_refl eq_refl) as (_ & Hnone & _).
  split; [reflexivity | exact Hnone].
Defined.

(** ** The theorems above on the dinner room *)

Lemma controls_exclusive_witness :
  let c := state_after (mount Sample.decided_reply
                          (initial "DINNER" Sample.ann Sample.org)) in
  exists p, render c = RoomPage p
    /\ final_banner p = Some "Pizza"
    /\ is_some (final_banner p) && is_some (tie_prompt p) = false.
Proof.
  intros c. eexists. split; [reflexivity |]. split; [reflexivity |].
  destruct (controls_exclusive c) as (_ & _ & _ & Hbanner).
  apply Hbanner. reflexivity.
Defined.

Lemma failed_first_load_is_terminal_witness :
  let c := state_after (mount (Sample.refused "No such room")
                          (initial "NOPE" Sample.bob Sample.org)) in
  render c = NotFoundScreen
  /\ step c (PollTick 0 Sample.open_reply) = None
  /\ step c (ClickAddOption (Ok tt) Sample.open_reply) = None.
Proof.
  intros c.
  destruct (failed_first_load_is_terminal "NOPE" Sample.bob Sample.org
              (mkApiError (Some "No such room"))) as (Hrender & _ & _ & _ & Hdead).
  split; [exact Hrender |].
  split; apply Hdead; reflexivity.
Defined.

Lemma auth_submit_outcomes_witness :
  let res := Login.handleSubmit (Ok (mkAuthData "t0k3n" "ann@example.org"))
               (Login.mkState "ann@example.org" "secret" false) in
  let w' := Auth.after_events (log_of res) (Auth.fetch_profile (Auth.start None)) in
  Auth.authorization w' = Some "Bearer t0k3n"
  /\ Auth.email (Auth.auth w') = Some "ann@example.org".
Proof.
  intros res w'.
  destruct (auth_submit_outcomes false
              (Login.mkState "ann@example.org" "secret" false)
              (Ok (mkAuthData "t0k3n" "ann@example.org"))
              (Auth.fetch_profile (Auth.start None)) unit tt)
    as (_ & _ & _ & _ & _ & Hin).
  apply Hin. reflexivity.
Defined.
